(** * A shallow embedding of the round state machine of the Review-PR game

    The development follows the Python sources under [src/]:
    - [src/voting.py]         : the vote ledger, collection, tally and
                                termination check of one voting round;
    - [src/utils/file_io.py]  : the lobby roster file [players.json];
    - [src/game.py]           : the round-start icebreaker step of [play_game];
    - [src/main.py]           : the top-level loop.

    Python exceptions are modelled by the small outcome monad [Outcome]
    below; loops that wait on input or on other processes consume an
    explicit script of observations and report [Blocked] when the script
    runs out (the Python loop would keep waiting). *)

From Stdlib Require Import List String Ascii ZArith Bool Lia.
Import ListNotations.
Open Scope Z_scope.

(* ------------------------------------------------------------------ *)
(** ** Python runtime: exceptions and the outcome monad *)

(** The exceptions the embedded code can raise.  [JSONDecodeError] is,
    in Python, a subclass of [ValueError]; see [is_ValueError]. *)
Inductive exn :=
| ValueError
| JSONDecodeError
| KeyError
| IndexError
| TypeError
| SystemExit.

Definition is_ValueError (e : exn) : bool :=
  match e with ValueError | JSONDecodeError => true | _ => false end.

Inductive Outcome (A : Type) :=
| Done (a : A)
| Raised (e : exn)
| Blocked.
Arguments Done {A} a.
Arguments Raised {A} e.
Arguments Blocked {A}.

(** Code that touches a file threads the file's content as explicit
    state; a raised exception keeps the writes made before it. *)
Definition ST (S A : Type) := S -> Outcome A * S.

Definition ret {S A} (a : A) : ST S A := fun s => (Done a, s).
Definition raise {S A} (e : exn) : ST S A := fun s => (Raised e, s).
Definition blocked {S A} : ST S A := fun s => (Blocked, s).
Definition get {S} : ST S S := fun s => (Done s, s).
Definition put {S} (s' : S) : ST S unit := fun _ => (Done tt, s').

Definition bind {S A B} (m : ST S A) (k : A -> ST S B) : ST S B :=
  fun s =>
    match m s with
    | (Done a, s') => k a s'
    | (Raised e, s') => (Raised e, s')
    | (Blocked, s') => (Blocked, s')
    end.

Notation "'let*' x ':=' m 'in' k" := (bind m (fun x => k))
  (at level 200, x name, m at level 100, k at level 200).
Notation "'let*' ' p ':=' m 'in' k" := (bind m (fun x => match x with p => k end))
  (at level 200, p pattern, m at level 100, k at level 200).
Notation "m ;; k" := (bind m (fun _ => k)) (at level 100, right associativity).

(* ------------------------------------------------------------------ *)
(** ** Python dicts with string keys, as insertion-ordered association lists *)

Fixpoint lookup {V} (k : string) (d : list (string * V)) : option V :=
  match d with
  | [] => None
  | (k', v) :: d' => if String.eqb k k' then Some v else lookup k d'
  end.

(** [d[k] = v]: replaces the value in place for a present key, appends
    a fresh key at the end (Python dicts keep insertion order). *)
Fixpoint assoc_set {V} (d : list (string * V)) (k : string) (v : V)
  : list (string * V) :=
  match d with
  | [] => [(k, v)]
  | (k', v') :: d' =>
      if String.eqb k k' then (k', v) :: d' else (k', v') :: assoc_set d' k v
  end.

(** [str(n)] for a Python int. *)
Fixpoint digits_aux (fuel : nat) (n : Z) (acc : string) : string :=
  match fuel with
  | O => acc
  | S f =>
      let acc' := String (ascii_of_nat (48 + Z.to_nat (n mod 10))) acc in
      if n <? 10 then acc' else digits_aux f (n / 10) acc'
  end.

Definition str_of_Z (n : Z) : string :=
  if n <? 0
  then ("-" ++ digits_aux (S (Pos.size_nat (Z.to_pos (- n)))) (- n) "")%string
  else digits_aux (S (Pos.size_nat (Z.to_pos n))) n ""%string.

(* ------------------------------------------------------------------ *)
(** ** States ([utils.states]) *)

(** [PlayerState]: the fields the embedded code reads or writes.  The
    [datetime] in [starttime] is kept as the ["%Y-%m-%d %H:%M:%S"] text
    it is parsed from. *)
Record PlayerState := mkPlayer {
  code_name : string;
  is_human : bool;
  still_in_game : bool;
  timekeeper : bool;
  lobby_id : Z;
  starttime : string
}.

Definition set_still_in_game (p : PlayerState) (b : bool) : PlayerState :=
  {| code_name := code_name p; is_human := is_human p; still_in_game := b;
     timekeeper := timekeeper p; lobby_id := lobby_id p; starttime := starttime p |}.

(** [GameState]: the fields the embedded code reads or writes. *)
Record GameState := mkGame {
  players : list PlayerState;
  players_voted_off : list PlayerState;
  round_number : Z;
  number_of_human_players : Z;
  ice_asked : Z;
  icebreakers : list string;
  last_vote_outcome : string;
  round_complete : bool
}.

Definition with_players (gs : GameState) (ps : list PlayerState)
    (off : list PlayerState) (outcome : string) : GameState :=
  {| players := ps; players_voted_off := off; round_number := round_number gs;
     number_of_human_players := number_of_human_players gs;
     ice_asked := ice_asked gs; icebreakers := icebreakers gs;
     last_vote_outcome := outcome; round_complete := round_complete gs |}.

Definition with_outcome (gs : GameState) (outcome : string) : GameState :=
  with_players gs (players gs) (players_voted_off gs) outcome.

Definition with_round (gs : GameState) (r : Z) (complete : bool) : GameState :=
  {| players := players gs; players_voted_off := players_voted_off gs;
     round_number := r; number_of_human_players := number_of_human_players gs;
     ice_asked := ice_asked gs; icebreakers := icebreakers gs;
     last_vote_outcome := last_vote_outcome gs; round_complete := complete |}.

Inductive ScreenEnum := INTRO | SETUP | DEBUG | CHAT | SCORE | VOTE.

(* ------------------------------------------------------------------ *)
(** ** The vote ledger [voting.json] ([src/voting.py]) *)

(** One round's table: code name -> number of votes received. *)
Definition round_table := list (string * Z).
(** The whole file: ["votes_r<round>"] -> round table. *)
Definition vote_dict := list (string * round_table).

(** Content of the voting file as [json.load] sees it. *)
Inductive VotingFile :=
| VMissing                   (* [os.path.exists] is false *)
| VMalformed                 (* [json.load] raises [JSONDecodeError] *)
| VData (d : vote_dict).

Definition round_key (r : Z) : string := ("votes_r" ++ str_of_Z r)%string.

(** [{p.code_name: 0 for p in players}] *)
Definition zero_table (ps : list PlayerState) : round_table :=
  fold_left (fun acc p => assoc_set acc (code_name p) 0) ps [].

(** [get_voting_dict]: loads the file, or writes and returns the initial
    round-0 table when the file does not exist. *)
Definition get_voting_dict (gs : GameState) : ST VotingFile vote_dict :=
  fun vf =>
    match vf with
    | VData d => (Done d, vf)
    | VMalformed => (Raised JSONDecodeError, vf)
    | VMissing =>
        let d := [("votes_r0"%string, zero_table (players gs))] in
        (Done d, VData d)
    end.

(** [update_voting_dict]: one vote for [name] in the current round. *)
Definition update_voting_dict (gs : GameState) (name : string)
  : ST VotingFile vote_dict :=
  let* d := get_voting_dict gs in
  let rk := round_key (round_number gs) in
  let d1 := match lookup rk d with
            | Some _ => d
            | None => assoc_set d rk (zero_table (players gs))
            end in
  let tbl := match lookup rk d1 with Some t => t | None => [] end in
  match lookup name tbl with
  | Some n =>
      let d2 := assoc_set d1 rk (assoc_set tbl name (n + 1)) in
      put (VData d2) ;; ret d2
  | None => raise ValueError
  end.

Definition lift {S A} (o : Outcome A) : ST S A := fun s => (o, s).

(** One line typed at the voting prompt: [int(input(...))] either parses
    to an integer or raises [ValueError]. *)
Inductive Line :=
| LInt (z : Z)
| LText.

(** [sorted(players, key=lambda x: x.code_name)]: a stable insertion sort
    on the code names (compared as strings). *)
Fixpoint insert_by_code_name (p : PlayerState) (l : list PlayerState)
  : list PlayerState :=
  match l with
  | [] => [p]
  | q :: l' =>
      if String.ltb (code_name p) (code_name q) then p :: q :: l'
      else q :: insert_by_code_name p l'
  end.

Definition sort_by_code_name (l : list PlayerState) : list PlayerState :=
  fold_left (fun acc p => insert_by_code_name p acc) l [].

(** The [while True] loop of [collect_vote]; every rejected line is
    followed by one [input('Press Enter ...')] whose content is ignored. *)
Fixpoint collect_loop (eligible : list PlayerState) (me : string)
    (lines : list Line) : Outcome string :=
  match lines with
  | [] => Blocked
  | LText :: rest =>
      match rest with [] => Blocked | _ :: rest' => collect_loop eligible me rest' end
  | LInt v :: rest =>
      if (1 <=? v) && (v <=? Z.of_nat (List.length eligible)) then
        match nth_error eligible (Z.to_nat (v - 1)) with
        | Some p =>
            if String.eqb (code_name p) me then
              match rest with [] => Blocked | _ :: rest' => collect_loop eligible me rest' end
            else Done (code_name p)
        | None => Raised IndexError
        end
      else
        match rest with [] => Blocked | _ :: rest' => collect_loop eligible me rest' end
  end.

Definition collect_vote (gs : GameState) (ps : PlayerState) (lines : list Line)
  : Outcome string :=
  collect_loop (sort_by_code_name (players gs)) (code_name ps) lines.

(** [count_votes]: the names with the maximal count, and that count.
    [max] of an empty table raises [ValueError]; a missing round key
    raises [KeyError]. *)
Definition count_votes (d : vote_dict) (gs : GameState)
  : Outcome (list string * Z) :=
  match lookup (round_key (round_number gs)) d with
  | None => Raised KeyError
  | Some cur =>
      match cur with
      | [] => Raised ValueError
      | (_, v) :: rest =>
          let max_votes := fold_left Z.max (map snd rest) v in
          Done (map fst (filter (fun kv => snd kv =? max_votes) cur), max_votes)
      end
  end.

(** What [process_voting_result] returns for display. *)
Inductive Display :=
| GmMessage (s : string)             (* [format_gm_message(s)] *)
| YouWereVotedOut (name : string).   (* the red first-person banner *)

Definition msg_no_consensus : string :=
  "No consensus, no one is voted out this round.".
Definition msg_no_votes : string := "No votes were cast, no one is voted out.".
Definition msg_voted_out (name : string) : string :=
  (name ++ " has been voted out.")%string.
Definition msg_unexpected : string := "Unexpected error: No valid voting result.".

Definition process_voting_result (gs : GameState) (ps : PlayerState)
    (max_votes : Z) (top : list string)
  : Outcome (Display * GameState * PlayerState) :=
  if (1 <? List.length top)%nat then
    Done (GmMessage msg_no_consensus, with_outcome gs msg_no_consensus, ps)
  else if max_votes =? 0 then
    Done (GmMessage msg_no_votes, with_outcome gs msg_no_votes, ps)
  else
    match top with
    | [] => Raised IndexError
    | out :: _ =>
        match find (fun p => String.eqb (code_name p) out) (players gs) with
        | Some p =>
            let gs' := with_players gs
                         (filter (fun q => negb (String.eqb (code_name q) out)) (players gs))
                         (players_voted_off gs ++ [set_still_in_game p false])
                         (msg_voted_out out) in
            if String.eqb (code_name ps) out
            then Done (YouWereVotedOut (code_name ps), gs', set_still_in_game ps false)
            else Done (GmMessage (msg_voted_out out), gs', ps)
        | None => Done (GmMessage msg_unexpected, gs, ps)
        end
    end.

(** Lines 317-318 of [voting_round]: [count_votes] then
    [process_voting_result]. *)
Definition tally (gs : GameState) (ps : PlayerState) (d : vote_dict)
  : Outcome (Display * GameState * PlayerState) :=
  match count_votes d gs with
  | Done (top, max_votes) => process_voting_result gs ps max_votes top
  | Raised e => Raised e
  | Blocked => Blocked
  end.

Definition should_transition_to_score (gs : GameState) : bool :=
  if Nat.eqb (List.length (filter is_human (players gs))) 0 then true
  else if Nat.eqb (List.length (filter (fun p => negb (is_human p)) (players gs))) 0 then true
  else if number_of_human_players gs <=? round_number gs then true
  else false.

Definition sum_votes (t : round_table) : Z := fold_left Z.add (map snd t) 0.

(** The polling loop of [voting_round]: before each poll, the file holds
    whatever the other processes last wrote ([obs]); the loop leaves with
    the ledger of the first poll that counts enough votes. *)
Fixpoint wait_for_votes (gs : GameState) (needed : nat) (obs : list VotingFile)
  : ST VotingFile vote_dict :=
  match obs with
  | [] => blocked
  | o :: obs' =>
      put o ;;
      let* d := get_voting_dict gs in
      let cur := match lookup (round_key (round_number gs)) d with
                 | Some t => t | None => [] end in
      if Z.of_nat needed <=? sum_votes cur then ret d
      else wait_for_votes gs needed obs'
  end.

(** Lines 278-286 of [voting_round]: a player still in the game votes. *)
Definition cast_vote (gs : GameState) (ps : PlayerState) (lines : list Line)
  : ST VotingFile unit :=
  if still_in_game ps then
    let* who := lift (collect_vote gs ps lines) in
    update_voting_dict gs who ;; ret tt
  else ret tt.

(** [voting_round]; [synchronize_start_time] only touches the start-time
    file and is not part of this model. *)
Definition voting_round (gs : GameState) (ps : PlayerState)
    (lines : list Line) (obs : list VotingFile)
  : ST VotingFile (ScreenEnum * GameState * PlayerState) :=
  cast_vote gs ps lines ;;
  let human_players :=
    filter (fun p => is_human p && still_in_game p) (players gs) in
  let* d := wait_for_votes gs (List.length human_players) obs in
  let* '(_, gs1, ps1) := lift (tally gs ps d) in
  let ps2 := if existsb (fun p => still_in_game p && String.eqb (code_name p) (code_name ps1))
                        (players gs1)
             then ps1 else set_still_in_game ps1 false in
  let gs2 := with_round gs1 (round_number gs1 + 1) false in
  if should_transition_to_score gs2 then ret (SCORE, gs2, ps2)
  else ret (CHAT, gs2, ps2).

(* ------------------------------------------------------------------ *)
(** ** The lobby roster [players.json] ([src/utils/file_io.py]) *)

(** Content of a roster file as [json.load] sees it.  A file that parses
    is taken to hold a JSON array of [asdict(PlayerState)] objects, which
    [PlayerState( **p)] turns back into the same records. *)
Inductive RosterFile :=
| RMissing
| RMalformed
| RList (l : list PlayerState).

(** The lobby directories: path -> content of the file there. *)
Definition FS := string -> RosterFile.

Definition fs_update (fs : FS) (path : string) (c : RosterFile) : FS :=
  fun q => if String.eqb q path then c else fs q.

(** [os.path.join(lobby_path, "players.json")] *)
Definition lobby_players_path (debug : bool) (lobby : Z) : string :=
  ((if debug then "./data/debug/lobbies/lobby_" else "./data/runtime/lobbies/lobby_")
   ++ str_of_Z lobby ++ "/players.json")%string.

Definition save_player_to_lobby_file (ps : PlayerState) (debug : bool) : ST FS unit :=
  let file_path := lobby_players_path debug (lobby_id ps) in
  let* fs := get in
  let players := match fs file_path with
                 | RMissing => []            (* the file does not exist *)
                 | RMalformed => []          (* [except json.JSONDecodeError: pass] *)
                 | RList l => l
                 end in
  let players' := if existsb (fun p => String.eqb (code_name p) (code_name ps)) players
                  then players else players ++ [ps] in
  put (fs_update fs file_path (RList players')).

(** A sequence of registrations, one [save_player_to_lobby_file(ps, debug)]
    call after the other. *)
Fixpoint register_all (regs : list (PlayerState * bool)) : ST FS unit :=
  match regs with
  | [] => ret tt
  | (ps, debug) :: regs' => save_player_to_lobby_file ps debug ;; register_all regs'
  end.

(** [load_players_from_lobby], on the file at [gs.player_path]. *)
Definition load_players_from_lobby : ST RosterFile (list PlayerState) :=
  fun rf =>
    match rf with
    | RMissing => (Done [], rf)
    | RMalformed => (Raised JSONDecodeError, rf)
    | RList l => (Done l, rf)
    end.

(* ------------------------------------------------------------------ *)
(** ** The round-start icebreaker step ([src/game.py]) *)

Definition with_icebreakers (gs : GameState) (asked : Z) (qs : list string)
  : GameState :=
  {| players := players gs; players_voted_off := players_voted_off gs;
     round_number := round_number gs;
     number_of_human_players := number_of_human_players gs;
     ice_asked := asked; icebreakers := qs;
     last_vote_outcome := last_vote_outcome gs; round_complete := round_complete gs |}.

(** The shared chat log, as the moderator messages appended to it. *)
Definition ChatLog := list Display.

(** [ask_icebreaker]: [gs.icebreakers[0]] raises [IndexError] on an
    empty queue before anything is written. *)
Definition ask_icebreaker (gs : GameState) (ps : PlayerState) : ST ChatLog GameState :=
  match icebreakers gs with
  | [] => raise IndexError
  | q :: rest =>
      (if timekeeper ps then let* log := get in put (log ++ [GmMessage q]) else ret tt) ;;
      ret (with_icebreakers gs (ice_asked gs + 1) rest)
  end.

(** The step of [play_game] before its tasks start. *)
Definition play_game_round_start (gs : GameState) (ps : PlayerState)
  : ST ChatLog GameState :=
  if ice_asked gs <=? round_number gs then ask_icebreaker gs ps else ret gs.

(* ------------------------------------------------------------------ *)
(** ** The top-level loop ([src/main.py]) *)

(** The value held by [ss]: a member of [ScreenEnum], or any other value. *)
Inductive ScreenValue :=
| Scr (s : ScreenEnum)
| OtherValue (n : Z).

(** Modelled from the spec: [score_screen] of [score_NEW], the module
    [main.py] imports it from, is missing from [src/].  The spec: the loop
    terminates "after Score is reached and acknowledged".  Until the
    player acknowledges the final screen ([ack = false]) the handler keeps
    waiting; then it ends the program, which in Python is the
    [SystemExit] that [sys.exit()] raises. *)
Definition score_screen_NEW (ack : bool) (gs : GameState) (ps : PlayerState)
  : Outcome (ScreenValue * GameState * PlayerState) :=
  if ack then Raised SystemExit else Blocked.

Section MainLoop.

(** The handlers of [INTRO], [SETUP], [CHAT] and [VOTE] ([play_intro],
    [collect_player_data], [game_MVP.play_game], [voting_round]), whose
    results depend on the terminal, the clock and the other processes;
    each may return the next triple, raise, or keep waiting. *)
Variable other_handler :
  ScreenEnum -> GameState -> PlayerState -> Outcome (ScreenValue * GameState * PlayerState).

(** Whether the player acknowledges the final screen. *)
Variable ack : bool.

(** [state_handler[ss]] called as [main] calls it.  [debug_setup]
    requires six arguments; [main] passes it five in debug mode
    ([ss, gs, ps, args.template_folder, args.player_number]) and three
    otherwise, so the call raises [TypeError] before its body runs. *)
Definition state_handler (s : ScreenEnum) (gs : GameState) (ps : PlayerState)
  : Outcome (ScreenValue * GameState * PlayerState) :=
  match s with
  | SCORE => score_screen_NEW ack gs ps
  | DEBUG => Raised TypeError
  | _ => other_handler s gs ps
  end.

Inductive LoopResult :=
| Stopped (ss : ScreenValue) (gs : GameState) (ps : PlayerState)
    (* [break] on a value with no handler *)
| Escaped (e : exn) (ss : ScreenValue) (gs : GameState) (ps : PlayerState)
    (* the handler of [ss] raised [e]; [main] catches nothing *)
| StillRunning (ss : ScreenValue) (gs : GameState) (ps : PlayerState).
    (* out of fuel, or the handler of [ss] is still waiting *)

(** [ss in state_handler]: every member of [ScreenEnum] has a handler. *)
Definition has_handler (ss : ScreenValue) : bool :=
  match ss with Scr _ => true | OtherValue _ => false end.

(** [fuel] iterations of the [while True] loop of [main]. *)
Fixpoint main_loop (fuel : nat) (ss : ScreenValue) (gs : GameState) (ps : PlayerState)
  : LoopResult :=
  match fuel with
  | O => StillRunning ss gs ps
  | S f =>
      match ss with
      | Scr s =>
          match state_handler s gs ps with
          | Done (ss', gs', ps') => main_loop f ss' gs' ps'
          | Raised e => Escaped e ss gs ps
          | Blocked => StillRunning ss gs ps
          end
      | OtherValue _ => Stopped ss gs ps
      end
  end.

End MainLoop.

(** Replaying the round-start step [n] times on the same (mutated) state. *)
Fixpoint replay_round_start (n : nat) (gs : GameState) (ps : PlayerState)
  : ST ChatLog GameState :=
  match n with
  | O => ret gs
  | S n' => let* gs' := play_game_round_start gs ps in replay_round_start n' gs' ps
  end.

(* ------------------------------------------------------------------ *)
(** ** The round start-time file ([src/utils/file_io.py]) *)

(** Content of the start-time file as [json.load] sees it. *)
Inductive StartFile :=
| SMissing
| SMalformed
| SData (d : list (string * string)).
    (* round -> start time, as [set_round_start_time] writes it: the
       ["%Y-%m-%d %H:%M:%S"] text of a [datetime], which [strptime]
       parses back *)

(** [init_start_time_file] *)
Definition init_start_time_file : ST StartFile unit :=
  let* f := get in
  match f with SMissing => put (SData []) | _ => ret tt end.

(** [load_start_times]: a missing or corrupt file reads as [{}]. *)
Definition load_start_times : ST StartFile (list (string * string)) :=
  let* f := get in
  match f with
  | SData d => ret d
  | SMissing | SMalformed => ret []
  end.

(** [save_start_times] *)
Definition save_start_times (d : list (string * string)) : ST StartFile unit :=
  put (SData d).

(** [assign_timekeeper] *)
Definition assign_timekeeper (ps : PlayerState) : PlayerState :=
  {| code_name := code_name ps; is_human := is_human ps; still_in_game := still_in_game ps;
     timekeeper := true; lobby_id := lobby_id ps; starttime := starttime ps |}.

(** [ps.starttime = datetime.strptime(start_time_str, "%Y-%m-%d %H:%M:%S")] *)
Definition set_starttime (ps : PlayerState) (start_time_str : string) : PlayerState :=
  {| code_name := code_name ps; is_human := is_human ps; still_in_game := still_in_game ps;
     timekeeper := timekeeper ps; lobby_id := lobby_id ps; starttime := start_time_str |}.

(** [set_round_start_time]; [now] is the formatted [datetime.now()]. *)
Definition set_round_start_time (current_round : string) (start_times : list (string * string))
    (now : string) : ST StartFile string :=
  save_start_times (assoc_set start_times current_round now) ;; ret now.

(** [wait_for_start_time]: before each poll the file holds what the
    other processes last wrote ([obs]). *)
Fixpoint wait_for_start_time (current_round : string) (obs : list StartFile)
  : ST StartFile string :=
  match obs with
  | [] => blocked
  | o :: obs' =>
      put o ;;
      let* start_times := load_start_times in
      match lookup current_round start_times with
      | Some s => ret s
      | None => wait_for_start_time current_round obs'
      end
  end.

(** [synchronize_start_time]: the updated player (timekeeper flag and
    [starttime], set in every branch) and the start time string. *)
Definition synchronize_start_time (gs : GameState) (ps : PlayerState) (now : string)
    (obs : list StartFile) : ST StartFile (PlayerState * string) :=
  let* f := get in
  let* ps1 := match f with
              | SMissing => init_start_time_file ;; ret (assign_timekeeper ps)
              | _ => ret ps
              end in
  let current_round := str_of_Z (round_number gs) in
  let* start_times := load_start_times in
  match timekeeper ps1, start_times with
  | true, [] =>
      let* s := set_round_start_time current_round start_times now in
      ret (set_starttime ps1 s, s)
  | _, _ =>
      match lookup current_round start_times with
      | None =>
          if timekeeper ps1 then
            let* s := set_round_start_time current_round start_times now in
            ret (set_starttime ps1 s, s)
          else
            let* s := wait_for_start_time current_round obs in
            ret (set_starttime ps1 s, s)
      | Some s => ret (set_starttime ps1 s, s)
      end
  end.

(** [synchronize_start_time_debug] *)
Definition synchronize_start_time_debug (gs : GameState) (ps : PlayerState) (now : string)
    (obs : list StartFile) : ST StartFile (PlayerState * string) :=
  let current_round := str_of_Z (round_number gs) in
  if timekeeper ps then
    let* s := set_round_start_time current_round [] now in ret (set_starttime ps s, s)
  else
    let* s := wait_for_start_time current_round obs in ret (set_starttime ps s, s).

(* ------------------------------------------------------------------ *)
(** ** Text: [str.strip], [str.upper] and [readlines] *)

(** [str.isspace] on one character (code points 0-255). *)
Definition is_space (c : ascii) : bool :=
  let n := nat_of_ascii c in
  ((9 <=? n) && (n <=? 13))%nat || ((28 <=? n) && (n <=? 32))%nat
  || (n =? 133)%nat || (n =? 160)%nat.

Fixpoint lstrip (s : string) : string :=
  match s with
  | EmptyString => EmptyString
  | String c s' => if is_space c then lstrip s' else s
  end.

(** Drops [c] when it and everything after it are whitespace. *)
Fixpoint rstrip (s : string) : string :=
  match s with
  | EmptyString => EmptyString
  | String c s' =>
      let r := rstrip s' in
      if is_space c && String.eqb r EmptyString then EmptyString else String c r
  end.

(** [s.strip()] *)
Definition py_strip (s : string) : string := rstrip (lstrip s).

(** [s.upper()] on ASCII letters. *)
Definition upper_char (c : ascii) : ascii :=
  let n := nat_of_ascii c in
  if ((97 <=? n) && (n <=? 122))%nat then ascii_of_nat (n - 32) else c.

Fixpoint py_upper (s : string) : string :=
  match s with
  | EmptyString => EmptyString
  | String c s' => String (upper_char c) (py_upper s')
  end.

Definition newline : ascii := ascii_of_nat 10.

(** [f.readlines()] on the text a reader sees (text mode turns ["\r\n"]
    and ["\r"] into ["\n"]): every line keeps its ["\n"], the last one
    may lack it.  The chat log is taken as that text; what the players
    append to it carries no ["\r"], so appending to the file appends to
    the text. *)
Fixpoint readlines (s : string) : list string :=
  match s with
  | EmptyString => []
  | String c s' =>
      if Ascii.eqb c newline then String c EmptyString :: readlines s'
      else match readlines s' with
           | [] => [String c EmptyString]
           | l :: ls => String c l :: ls
           end
  end.

(** [l[i:]] for a Python list and an int [i] (negative counts from the end). *)
Definition py_slice_from {A} (l : list A) (i : Z) : list A :=
  if 0 <=? i then skipn (Z.to_nat i) l
  else skipn (Z.to_nat (Z.max 0 (Z.of_nat (List.length l) + i))) l.

(** [read_new_messages] on the content of the chat log. *)
Definition read_new_messages (content : string) (last_line : Z)
  : list string * list string * Z :=
  let full_chat_list :=
    map py_strip (filter (fun l => negb (String.eqb (py_strip l) EmptyString))
                         (readlines content)) in
  let new_messages_list := py_slice_from full_chat_list last_line in
  (full_chat_list, new_messages_list,
   last_line + Z.of_nat (List.length new_messages_list)).

(* ------------------------------------------------------------------ *)
(** ** The ballot text ([display_voting_prompt], [src/voting.py]) *)

(** [[f'{idx + 1}: {p.code_name}' for idx, p in enumerate(l)]], the
    enumeration starting at [idx]. *)
Fixpoint voting_options_from (idx : nat) (l : list PlayerState) : list string :=
  match l with
  | [] => []
  | p :: l' =>
      (str_of_Z (Z.of_nat idx + 1) ++ ": " ++ code_name p)%string
        :: voting_options_from (S idx) l'
  end.

(** [sep.join(l)] *)
Fixpoint py_join (sep : string) (l : list string) : string :=
  match l with
  | [] => EmptyString
  | [x] => x
  | x :: l' => (x ++ sep ++ py_join sep l')%string
  end.

Definition voting_options (gs : GameState) : list string :=
  voting_options_from 0 (sort_by_code_name (players gs)).

Definition display_voting_prompt (gs : GameState) : string :=
  ("Select a player to vote out by number:" ++ String newline EmptyString
   ++ py_join (String newline EmptyString) (voting_options gs)
   ++ String newline "> ")%string.

(** The text has no [":"]. *)
Fixpoint no_colon (s : string) : bool :=
  match s with
  | EmptyString => true
  | String c s' => negb (Ascii.eqb c ":") && no_colon s'
  end.

(** The line [user_input] appends to the chat log:
    [f"{ps.code_name}: {user_message}\n"]. *)
Definition user_input_line (code_name user_message : string) : string :=
  (code_name ++ ": " ++ user_message ++ String newline EmptyString)%string.

(* ------------------------------------------------------------------ *)
(** ** One pass of the automated responder loop ([ai_response], [src/game.py]) *)

Inductive AiStep :=
| AiExit                  (* the doppelganger was voted out: [return] *)
| AiSkip                  (* the last line is its own: [continue] *)
| AiQuiet                 (* a sentinel answer or an error: nothing written *)
| AiWrite (line : string).  (* appended to the chat log *)

Definition ai_sentinels : list string :=
  ["STAY SILENT"; "ERROR"; "No response needed."]%string.

(** [response] is the outcome of [ai.handle_dialogue(messages)]. *)
Definition ai_response_step (ai_name : string) (ai_still_in_game : bool)
    (content : string) (response : Outcome string) : AiStep :=
  if negb ai_still_in_game then AiExit
  else
    let messages := map py_strip (readlines content) in
    let last_line := last messages EmptyString in
    if String.prefix (ai_name ++ ":") last_line then AiSkip
    else match response with
         | Done r =>
             if existsb (String.eqb r) ai_sentinels then AiQuiet
             else AiWrite (ai_name ++ ": " ++ r ++ String newline EmptyString)%string
         | _ => AiQuiet
         end.

(* ------------------------------------------------------------------ *)
(** ** [SequentialAssigner] ([src/utils/file_io.py]) *)

(** What [_load_items] may raise. *)
Inductive AssignerError :=
| AFileNotFound          (* [FileNotFoundError]: no list file *)
| AIOError               (* [IOError]: the JSON does not parse *)
| AValueError.           (* [ValueError]: no list under the key, or no item *)

(** The list file: the JSON object's entries, a value being a list of
    strings or anything else. *)
Inductive JsonValue :=
| JStrList (l : list string)
| JOther.

Inductive ListFile :=
| LMissing
| LMalformed
| LData (d : list (string * JsonValue)).

Definition load_items (key : string) (f : ListFile) : list string + AssignerError :=
  match f with
  | LMissing => inr AFileNotFound
  | LMalformed => inr AIOError
  | LData d =>
      match lookup key d with
      | Some (JStrList raw) =>
          let items := map (fun item => py_upper (py_strip item))
                           (filter (fun item => negb (String.eqb (py_strip item) EmptyString))
                                   raw) in
          match items with [] => inr AValueError | _ => inl items end
      | _ => inr AValueError
      end
  end.

(** The index file, as [int(f.read().strip())] sees it. *)
Inductive IndexFile :=
| IMissing
| IParsed (z : Z)
| IUnparsable.           (* [int()] raises [ValueError], or the read fails *)

Definition read_index (items : list string) (f : IndexFile) : Z :=
  match f with
  | IParsed idx => if (0 <=? idx) && (idx <? Z.of_nat (List.length items)) then idx else 0
  | _ => 0
  end.

(** [assign]; [None] is the [IndexError] of [items[0]] on an empty list.
    [_write_index] writes [str(next_idx)], which reads back as [next_idx]. *)
Definition assign (items : list string) : ST IndexFile (option string) :=
  let* f := get in
  let idx := read_index items f in
  match nth_error items (Z.to_nat idx) with
  | None => ret None
  | Some selected =>
      let selected :=
        if String.eqb selected EmptyString || negb (existsb (String.eqb selected) items)
        then nth 0 items EmptyString else selected in
      let next_idx := (idx + 1) mod Z.of_nat (List.length items) in
      put (IParsed next_idx) ;; ret (Some selected)
  end.

(** [n] successive calls of [assign]. *)
Fixpoint assign_n (n : nat) (items : list string) : ST IndexFile (list (option string)) :=
  match n with
  | O => ret []
  | S n' => let* x := assign items in let* xs := assign_n n' items in ret (x :: xs)
  end.

(* ------------------------------------------------------------------ *)
(** ** Views used by the properties below *)

(** The current round's table as [voting_round]'s polling loop reads it
    ([.get(f"votes_r{round}", {})]). *)
Definition ledger_table (d : vote_dict) (r : Z) : round_table :=
  match lookup (round_key r) d with Some t => t | None => [] end.

(** The text ends with a complete line (or is empty). *)
Fixpoint line_complete (s : string) : bool :=
  match s with
  | EmptyString => true
  | String c EmptyString => Ascii.eqb c newline
  | String _ s' => line_complete s'
  end.

(** The text has no line break (["\n"] or ["\r"]). *)
Fixpoint no_newline (s : string) : bool :=
  match s with
  | EmptyString => true
  | String c s' =>
      negb (Ascii.eqb c newline) && negb (Ascii.eqb c (ascii_of_nat 13)) && no_newline s'
  end.

(** The dict [load_start_times] returns for a given file content. *)
Definition start_times_of (f : StartFile) : list (string * string) :=
  match f with SData d => d | _ => [] end.

(* ------------------------------------------------------------------ *)
(** ** Sample data: a three-player lobby (humans A and C, bot B) *)

Definition sample_A : PlayerState := mkPlayer "A" true true true 0 "".
Definition sample_B : PlayerState := mkPlayer "B" false true false 0 "".
Definition sample_C : PlayerState := mkPlayer "C" true true false 0 "".

Definition sample_game (round asked : Z) : GameState :=
  mkGame [sample_A; sample_B; sample_C] [] round 2 asked
         ["q1"; "q2"; "q3"]%string ""%string false.

(** A handler for the other screens: [VOTE] runs [voting_round] with
    the voter typing [2] and a ledger whose round-0 table lists only [A]
    and [C]; the other screens move on to [VOTE]. *)
Definition sample_handler (s : ScreenEnum) (gs : GameState) (ps : PlayerState)
  : Outcome (ScreenValue * GameState * PlayerState) :=
  match s with
  | VOTE =>
      match fst (voting_round gs ps [LInt 2] []
                   (VData [("votes_r0"%string, [("A"%string, 0); ("C"%string, 0)])])) with
      | Done (ss, gs', ps') => Done (Scr ss, gs', ps')
      | Raised e => Raised e
      | Blocked => Blocked
      end
  | _ => Done (Scr VOTE, gs, ps)
  end.

(* ================================================================== *)
(** * Properties *)

(** ** Vocabulary of the plurality policy *)

(** [m] is the maximal count of the (non-empty) table. *)
Definition is_max (m : Z) (tbl : round_table) : Prop :=
  (exists k, In (k, m) tbl) /\ forall k v, In (k, v) tbl -> v <= m.

(** The maximal count is reached by two different targets. *)
Definition shared_max (tbl : round_table) : Prop :=
  exists a b m, is_max m tbl /\ a <> b /\ In (a, m) tbl /\ In (b, m) tbl.

(** [t] has strictly more votes than every other target. *)
Definition strict_max (t : string) (tbl : round_table) : Prop :=
  exists m, In (t, m) tbl /\ forall k v, In (k, v) tbl -> k <> t -> v < m.

(** ** Lemmas on the tally *)

Lemma fold_max_ge_init (l : list Z) (v : Z) : v <= fold_left Z.max l v.
Proof.
  revert v; induction l as [|x l IH]; intros v; simpl; [lia|].
  specialize (IH (Z.max v x)); lia.
Qed.

Lemma fold_max_ge (l : list Z) (v x : Z) : In x l -> x <= fold_left Z.max l v.
Proof.
  revert v; induction l as [|y l IH]; intros v Hin; simpl in *; [contradiction|].
  destruct Hin as [->|Hin]; [|now apply IH].
  pose proof (fold_max_ge_init l (Z.max v x)); lia.
Qed.

Lemma fold_max_reached (l : list Z) (v : Z) :
  fold_left Z.max l v = v \/ In (fold_left Z.max l v) l.
Proof.
  revert v; induction l as [|y l IH]; intros v; simpl; [now left|].
  destruct (IH (Z.max v y)) as [H|H]; [|now right; right].
  rewrite H; destruct (Z.max_spec v y) as [[_ ->]|[_ ->]]; [now right; left|now left].
Qed.

Lemma count_votes_max (d : vote_dict) (gs : GameState) (tbl : round_table) :
  lookup (round_key (round_number gs)) d = Some tbl -> tbl <> [] ->
  exists m, is_max m tbl /\
    count_votes d gs = Done (map fst (filter (fun kv => snd kv =? m) tbl), m).
Proof.
  intros Hl Hne; unfold count_votes; rewrite Hl.
  destruct tbl as [|[k0 v0] rest]; [contradiction|].
  set (m := fold_left Z.max (map snd rest) v0).
  exists m; split; [|reflexivity]; split.
  - destruct (fold_max_reached (map snd rest) v0) as [H|H].
    + exists k0; left; fold m in H; now rewrite H.
    + apply in_map_iff in H as [[k v] [Hv Hin]]; simpl in Hv.
      exists k; right; fold m in Hv; now rewrite <- Hv.
  - intros k v [Heq|Hin].
    + injection Heq as _ <-; apply fold_max_ge_init.
    + apply fold_max_ge; now apply (in_map snd) in Hin.
Qed.

Lemma is_max_unique (m m' : Z) (tbl : round_table) :
  is_max m tbl -> is_max m' tbl -> m = m'.
Proof.
  intros [[k Hk] Hm] [[k' Hk'] Hm'].
  specialize (Hm _ _ Hk'); specialize (Hm' _ _ Hk); lia.
Qed.

Lemma in_top (tbl : round_table) (m : Z) (k : string) :
  In k (map fst (filter (fun kv => snd kv =? m) tbl)) <-> In (k, m) tbl.
Proof.
  rewrite in_map_iff; split.
  - intros [[k' v] [Hk Hin]]; simpl in Hk; subst k'.
    apply filter_In in Hin as [Hin Hv]; simpl in Hv.
    now apply Z.eqb_eq in Hv as ->.
  - intros Hin; exists (k, m); split; [reflexivity|].
    apply filter_In; split; [assumption|]; simpl; apply Z.eqb_refl.
Qed.

Lemma nodup_keys_filter (tbl : round_table) (f : string * Z -> bool) :
  NoDup (map fst tbl) -> NoDup (map fst (filter f tbl)).
Proof.
  induction tbl as [|[k v] tbl IH]; simpl; intros Hnd; [constructor|].
  inversion Hnd as [|? ? Hnin Hnd']; subst.
  destruct (f (k, v)); simpl; [|now apply IH].
  constructor; [|now apply IH].
  intros Hin; apply Hnin.
  apply in_map_iff in Hin as [[k' v'] [Hk Hin]]; simpl in Hk; subst k'.
  apply filter_In in Hin as [Hin _].
  now apply (in_map fst) in Hin.
Qed.

Lemma find_code_name (l : list PlayerState) (t : string) :
  In t (map code_name l) ->
  exists p, find (fun p => String.eqb (code_name p) t) l = Some p /\
            In p l /\ code_name p = t.
Proof.
  intros Hin.
  destruct (find (fun p => String.eqb (code_name p) t) l) as [p|] eqn:Hf.
  - apply find_some in Hf as [Hp Heq]; apply String.eqb_eq in Heq; eauto.
  - exfalso; apply in_map_iff in Hin as [p [Hp Hin]].
    pose proof (find_none _ _ Hf p Hin) as Hn; simpl in Hn.
    rewrite Hp, String.eqb_refl in Hn; discriminate.
Qed.

(** ** C1: the plurality policy of the tally *)

(** C1.  For a round's vote table (a Python dict: its keys are distinct)
    with maximal count [m], whose target with a strict maximum, if any,
    is on the active roster: when [m] is reached by two targets, or
    [m = 0], nobody is eliminated; otherwise the single target [t] with
    the strict maximum is eliminated: it leaves the active roster, its
    record goes to the voted-off list with [still_in_game = false], the
    rest of the roster is untouched, and the local player's flag turns
    false exactly when it is [t]. *)
Theorem tally_plurality (gs : GameState) (ps : PlayerState) (d : vote_dict)
    (tbl : round_table) (m : Z) :
  lookup (round_key (round_number gs)) d = Some tbl ->
  NoDup (map fst tbl) ->
  is_max m tbl ->
  (forall t, strict_max t tbl -> In t (map code_name (players gs))) ->
  exists msg gs' ps',
    tally gs ps d = Done (msg, gs', ps') /\
    ((shared_max tbl \/ m = 0) ->
       players gs' = players gs /\ players_voted_off gs' = players_voted_off gs /\
       ps' = ps) /\
    (~ shared_max tbl -> m <> 0 ->
       exists t p, strict_max t tbl /\ In p (players gs) /\ code_name p = t /\
         players gs' = filter (fun q => negb (String.eqb (code_name q) t)) (players gs) /\
         players_voted_off gs' = players_voted_off gs ++ [set_still_in_game p false] /\
         still_in_game ps' = (if String.eqb (code_name ps) t then false
                              else still_in_game ps)).
Proof.
  intros Hl Hnd Hmax Hroster.
  assert (Hne : tbl <> []) by (destruct Hmax as [[k Hk] _]; now intros ->).
  destruct (count_votes_max d gs tbl Hl Hne) as [M [HM Hc]].
  rewrite (is_max_unique _ _ _ Hmax HM) in *; clear m Hmax.
  unfold tally; rewrite Hc.
  pose proof (nodup_keys_filter tbl (fun kv => snd kv =? M) Hnd) as Hndtop.
  set (top := map fst (filter (fun kv => snd kv =? M) tbl)) in *.
  assert (Htop : forall k, In k top <-> In (k, M) tbl) by (intros; apply in_top).
  destruct top as [|t [|b rest]] eqn:Etop.
  - (* no target reaches the maximum: impossible *)
    exfalso; destruct HM as [[k Hk] _]; now apply (Htop k) in Hk.
  - (* a single target [t] reaches the maximum *)
    assert (Hstrict : strict_max t tbl).
    { exists M; split; [apply Htop; now left|].
      intros k v Hin Hk.
      destruct HM as [_ Hle]; specialize (Hle _ _ Hin).
      destruct (Z.eq_dec v M) as [->|]; [|lia].
      apply Htop in Hin; destruct Hin as [<-|[]]; now contradiction Hk. }
    assert (Hnotshared : ~ shared_max tbl).
    { intros (a & b & m' & Hm' & Hab & Ha & Hb).
      rewrite <- (is_max_unique _ _ _ HM Hm') in Ha, Hb.
      apply Htop in Ha; apply Htop in Hb.
      destruct Ha as [<-|[]]; destruct Hb as [<-|[]]; now apply Hab. }
    unfold process_voting_result; simpl.
    destruct (M =? 0) eqn:HM0.
    + apply Z.eqb_eq in HM0; subst M.
      do 3 eexists; split; [reflexivity|].
      split; [intros _; now repeat split|].
      intros _ Hz; now contradiction Hz.
    + apply Z.eqb_neq in HM0.
      destruct (find_code_name (players gs) t (Hroster t Hstrict)) as (p & Hf & Hp & Hpt).
      rewrite Hf.
      destruct (String.eqb (code_name ps) t) eqn:Hme.
      * do 3 eexists; split; [reflexivity|]; split.
        { intros [Hs|Hz]; [now contradiction Hnotshared|now contradiction HM0]. }
        intros _ _; exists t, p; repeat split; auto; now rewrite Hme.
      * do 3 eexists; split; [reflexivity|]; split.
        { intros [Hs|Hz]; [now contradiction Hnotshared|now contradiction HM0]. }
        intros _ _; exists t, p; repeat split; auto; now rewrite Hme.
  - (* two different targets reach the maximum: no consensus *)
    do 3 eexists; split; [reflexivity|]; split.
    + intros _; now repeat split.
    + intros Hns _; exfalso; apply Hns.
      assert (Htb : t <> b).
      { intros ->; apply NoDup_cons_iff in Hndtop as [Hnin _]; apply Hnin; now left. }
      exists t, b, M; split; [exact HM|split; [exact Htb|split]].
      * apply Htop; now left.
      * apply Htop; right; now left.
Qed.

(** ** The voting round, step by step *)

Lemma bind_done {S A B} (m : ST S A) (k : A -> ST S B) (s s' : S) (r : B) :
  bind m k s = (Done r, s') ->
  exists a s1, m s = (Done a, s1) /\ k a s1 = (Done r, s').
Proof.
  unfold bind; destruct (m s) as [[a| |] s1]; intros H; try discriminate; eauto.
Qed.

Lemma lift_done {S A} (o : Outcome A) (s s' : S) (a : A) :
  lift o s = (Done a, s') -> o = Done a /\ s' = s.
Proof. unfold lift; intros H; now injection H as -> ->. Qed.

Lemma ret_done {S A} (a a' : A) (s s' : S) :
  ret a s = (Done a', s') -> a' = a /\ s' = s.
Proof. unfold ret; intros H; now injection H as -> ->. Qed.

Lemma tally_keeps_round (gs : GameState) (ps : PlayerState) (d : vote_dict)
    (msg : Display) (gs1 : GameState) (ps1 : PlayerState) :
  tally gs ps d = Done (msg, gs1, ps1) ->
  round_number gs1 = round_number gs /\
  number_of_human_players gs1 = number_of_human_players gs.
Proof.
  unfold tally, process_voting_result.
  destruct (count_votes d gs) as [[top mx]| |]; try discriminate.
  destruct (1 <? List.length top)%nat.
  { intros H; injection H as _ <- _; now split. }
  destruct (mx =? 0).
  { intros H; injection H as _ <- _; now split. }
  destruct top as [|out rest]; [discriminate|].
  destruct (find _ (players gs)) as [p|].
  - destruct (String.eqb (code_name ps) out); intros H; injection H as _ <- _; now split.
  - intros H; injection H as _ <- _; now split.
Qed.

(** [voting_round], when it completes, is the tally followed by the
    round increment and the termination check on the incremented state. *)
Lemma voting_round_done (gs : GameState) (ps : PlayerState) (lines : list Line)
    (obs : list VotingFile) (vf vf' : VotingFile) (ss : ScreenEnum)
    (gs2 : GameState) (ps2 : PlayerState) :
  voting_round gs ps lines obs vf = (Done (ss, gs2, ps2), vf') ->
  exists d msg gs1 ps1,
    tally gs ps d = Done (msg, gs1, ps1) /\
    gs2 = with_round gs1 (round_number gs1 + 1) false /\
    ss = (if should_transition_to_score gs2 then SCORE else CHAT).
Proof.
  unfold voting_round; intros H.
  apply bind_done in H as (u & vf1 & _ & H).
  apply bind_done in H as (d & vf2 & _ & H).
  apply bind_done in H as ([[msg gs1] ps1] & vf3 & Ht & H).
  apply lift_done in Ht as [Ht _].
  exists d, msg, gs1, ps1; split; [exact Ht|].
  destruct (should_transition_to_score _) eqn:Hs;
    apply ret_done in H as [H _]; injection H as -> -> _;
    split; try reflexivity; now rewrite Hs.
Qed.

Lemma filter_length_zero {A} (f : A -> bool) (l : list A) :
  List.length (filter f l) = 0%nat <-> (forall x, In x l -> f x = false).
Proof.
  split.
  - intros H x Hin; destruct (f x) eqn:Hf; [|reflexivity].
    assert (Hx : In x (filter f l)) by (now apply filter_In).
    destruct (filter f l); [contradiction|discriminate].
  - intros H; destruct (filter f l) as [|y l'] eqn:E; [reflexivity|].
    assert (Hy : In y (filter f l)) by (rewrite E; now left).
    apply filter_In in Hy as [Hin Hfy]; now rewrite H in Hfy.
Qed.

Lemma should_transition_to_score_spec (gs : GameState) :
  should_transition_to_score gs = true <->
  (forall p, In p (players gs) -> is_human p = false) \/
  (forall p, In p (players gs) -> is_human p = true) \/
  number_of_human_players gs <= round_number gs.
Proof.
  unfold should_transition_to_score.
  pose proof (filter_length_zero is_human (players gs)) as H1.
  pose proof (filter_length_zero (fun p => negb (is_human p)) (players gs)) as H2.
  destruct (Nat.eqb_spec (List.length (filter is_human (players gs))) 0) as [E1|E1].
  { split; [intros _; left; now apply (proj1 H1)|intros _; reflexivity]. }
  destruct (Nat.eqb_spec (List.length (filter (fun p => negb (is_human p)) (players gs))) 0)
    as [E2|E2].
  { split; [intros _; right; left|intros _; reflexivity].
    intros p Hp; pose proof (proj1 H2 E2 p Hp) as Hn; cbn in Hn; destruct (is_human p); simpl in Hn; congruence. }
  destruct (Z.leb_spec (number_of_human_players gs) (round_number gs)) as [E3|E3].
  { split; [intros _; now right; right|intros _; reflexivity]. }
  split; [discriminate|].
  intros [Hh|[Ha|Hr]]; [now apply (proj2 H1) in Hh|exfalso|lia].
  apply E2, (proj2 H2); intros p Hp; now rewrite (Ha p Hp).
Qed.

(** ** C2: the screen after a voting round *)

(** C2.  When a voting round completes, the returned state carries the
    post-vote roster of the tally and the incremented round number, and
    the next screen is [SCORE] exactly when no human is left on that
    roster, or no automated player is left, or the round number reached
    the configured number of humans; otherwise it is [CHAT]. *)
Theorem voting_round_next_screen (gs : GameState) (ps : PlayerState)
    (lines : list Line) (obs : list VotingFile) (vf vf' : VotingFile)
    (ss : ScreenEnum) (gs2 : GameState) (ps2 : PlayerState) :
  voting_round gs ps lines obs vf = (Done (ss, gs2, ps2), vf') ->
  (exists d msg gs1 ps1, tally gs ps d = Done (msg, gs1, ps1) /\
                         players gs2 = players gs1) /\
  round_number gs2 = round_number gs + 1 /\
  number_of_human_players gs2 = number_of_human_players gs /\
  (ss = SCORE <->
     (forall p, In p (players gs2) -> is_human p = false) \/
     (forall p, In p (players gs2) -> is_human p = true) \/
     number_of_human_players gs2 <= round_number gs2) /\
  (ss <> SCORE -> ss = CHAT).
Proof.
  intros H.
  destruct (voting_round_done _ _ _ _ _ _ _ _ _ H) as (d & msg & gs1 & ps1 & Ht & -> & ->).
  destruct (tally_keeps_round _ _ _ _ _ _ Ht) as [Hr Hn].
  split; [exists d, msg, gs1, ps1; now split|].
  split; [simpl; now rewrite Hr|].
  split; [exact Hn|].
  rewrite <- should_transition_to_score_spec.
  destruct (should_transition_to_score _); split; try easy.
Qed.

(** ** C7: the round number advances by one before the check *)

(** C7.  Every voting round that completes returns a state whose round
    number is the old one plus one, whatever the tally decided, and the
    next screen is the verdict of [should_transition_to_score] on that
    incremented state. *)
Theorem voting_round_increments_round (gs : GameState) (ps : PlayerState)
    (lines : list Line) (obs : list VotingFile) (vf vf' : VotingFile)
    (ss : ScreenEnum) (gs2 : GameState) (ps2 : PlayerState) :
  voting_round gs ps lines obs vf = (Done (ss, gs2, ps2), vf') ->
  round_number gs2 = round_number gs + 1 /\
  ss = (if should_transition_to_score gs2 then SCORE else CHAT).
Proof.
  intros H.
  destruct (voting_round_done _ _ _ _ _ _ _ _ _ H) as (d & msg & gs1 & ps1 & Ht & Hgs & Hss).
  destruct (tally_keeps_round _ _ _ _ _ _ Ht) as [Hr _].
  split; [subst gs2; simpl; now rewrite Hr|exact Hss].
Qed.

(** ** C6: no self-vote *)

Lemma collect_loop_not_self (eligible : list PlayerState) (me : string) :
  forall lines name, collect_loop eligible me lines = Done name -> name <> me.
Proof.
  fix IH 1.
  intros [|l rest] name H; simpl in H; [discriminate|].
  destruct l as [v|].
  - destruct ((1 <=? v) && (v <=? Z.of_nat (List.length eligible))).
    + destruct (nth_error eligible (Z.to_nat (v - 1))) as [p|]; [|discriminate].
      destruct (String.eqb (code_name p) me) eqn:Hp.
      * destruct rest as [|x rest']; [discriminate|exact (IH rest' name H)].
      * injection H as <-; intros Heq; rewrite Heq, String.eqb_refl in Hp; discriminate.
    + destruct rest as [|x rest']; [discriminate|exact (IH rest' name H)].
  - destruct rest as [|x rest']; [discriminate|exact (IH rest' name H)].
Qed.

(** C6.  [collect_vote] never returns the voter's own code name, and the
    only ledger write made by a player's own vote in [voting_round] is
    [update_voting_dict] for a target that [collect_vote] returned, hence
    different from the voter. *)
Theorem collect_vote_rejects_self (gs : GameState) (ps : PlayerState)
    (lines : list Line) (name : string) (vf : VotingFile) :
  (collect_vote gs ps lines = Done name -> name <> code_name ps) /\
  (snd (cast_vote gs ps lines vf) = vf \/
   exists who, collect_vote gs ps lines = Done who /\ who <> code_name ps /\
               snd (cast_vote gs ps lines vf) = snd (update_voting_dict gs who vf)).
Proof.
  split; [apply collect_loop_not_self|].
  unfold cast_vote; destruct (still_in_game ps); [|now left].
  unfold bind, lift; simpl.
  destruct (collect_vote gs ps lines) as [who| |] eqn:Hc; simpl; [|now left|now left].
  right; exists who; split; [reflexivity|split; [now apply collect_loop_not_self in Hc|]].
  destruct (update_voting_dict gs who vf) as [[u| |] vf1]; reflexivity.
Qed.

(** ** C8: registration keeps the roster free of duplicate code names *)

(** The code names listed by a roster file ([[]] when it cannot be read). *)
Definition roster_names (rf : RosterFile) : list string :=
  match rf with RList l => map code_name l | _ => [] end.

(** The roster holds each code name at most once. *)
Definition roster_ok (rf : RosterFile) : Prop := NoDup (roster_names rf).

Lemma existsb_code_name (l : list PlayerState) (n : string) :
  existsb (fun p => String.eqb (code_name p) n) l = true <-> In n (map code_name l).
Proof.
  rewrite existsb_exists, in_map_iff; split.
  - intros [p [Hp Heq]]; apply String.eqb_eq in Heq; eauto.
  - intros [p [<- Hp]]; exists p; split; [exact Hp|apply String.eqb_refl].
Qed.

Lemma save_player_state (ps : PlayerState) (debug : bool) (fs : FS) :
  save_player_to_lobby_file ps debug fs =
  (Done tt,
   let path := lobby_players_path debug (lobby_id ps) in
   let l := match fs path with RList l => l | _ => [] end in
   fs_update fs path
     (RList (if existsb (fun p => String.eqb (code_name p) (code_name ps)) l
             then l else l ++ [ps]))).
Proof.
  unfold save_player_to_lobby_file, bind, get, put; simpl.
  destruct (fs (lobby_players_path debug (lobby_id ps))); reflexivity.
Qed.

Lemma save_player_names (ps : PlayerState) (debug : bool) (fs : FS) (q : string) :
  roster_ok (fs q) ->
  let fs' := snd (save_player_to_lobby_file ps debug fs) in
  roster_ok (fs' q) /\
  (forall n, In n (roster_names (fs' q)) <->
             In n (roster_names (fs q)) \/
             (lobby_players_path debug (lobby_id ps) = q /\ code_name ps = n)).
Proof.
  intros Hok; rewrite save_player_state; simpl.
  unfold fs_update.
  destruct (String.eqb_spec q (lobby_players_path debug (lobby_id ps))) as [->|Hq].
  - set (path := lobby_players_path debug (lobby_id ps)) in *.
    assert (Hnd : NoDup (map code_name (match fs path with RList l => l | _ => [] end))
             /\ forall n, In n (map code_name (match fs path with RList l => l | _ => [] end))
                          <-> In n (roster_names (fs path))).
    { unfold roster_ok, roster_names in *; destruct (fs path);
        (split; [try constructor; assumption|intros n; reflexivity]). }
    destruct Hnd as [Hnd Hiff].
    set (l := match fs path with RList l => l | _ => [] end) in *.
    destruct (existsb _ l) eqn:Hex; unfold roster_ok, roster_names.
    + apply existsb_code_name in Hex.
      split; [exact Hnd|intros n; rewrite <- Hiff].
      split; [now left|intros [H|[_ <-]]; assumption].
    + split.
      * rewrite map_app; apply NoDup_app; [exact Hnd|repeat constructor; easy|].
        intros n Hn [<-|[]]; apply (proj2 (existsb_code_name l (code_name ps))) in Hn.
        congruence.
      * intros n; rewrite map_app, in_app_iff, <- Hiff; simpl.
        split; [intros [H|[<-|[]]]; [now left|now right]|].
        intros [H|[_ <-]]; [now left|now right; left].
  - split; [exact Hok|intros n; split; [now left|]].
    intros [H|[Hp _]]; [exact H|now contradiction Hq].
Qed.

Lemma register_all_state (regs : list (PlayerState * bool)) (fs : FS) :
  fst (register_all regs fs) = Done tt.
Proof.
  revert fs; induction regs as [|[ps debug] regs IH]; intros fs; [reflexivity|].
  simpl; unfold bind at 1; rewrite save_player_state; apply IH.
Qed.

(** C8.  Starting from roster files that each hold every code name at
    most once (in particular from no files at all), after any sequence
    of registrations every [players.json] holds each code name at most
    once, and holds exactly the names it held before together with the
    names registered to it.  Registering a code name that is already on
    its roster leaves every file as it was. *)
Theorem registration_roster_unique (regs : list (PlayerState * bool)) (fs0 : FS) :
  (forall q, roster_ok (fs0 q)) ->
  (forall q, roster_ok (snd (register_all regs fs0) q) /\
     forall n, In n (roster_names (snd (register_all regs fs0) q)) <->
               In n (roster_names (fs0 q)) \/
               exists ps debug, In (ps, debug) regs /\
                 lobby_players_path debug (lobby_id ps) = q /\ code_name ps = n) /\
  (forall ps debug l,
     fs0 (lobby_players_path debug (lobby_id ps)) = RList l ->
     In (code_name ps) (map code_name l) ->
     forall q, snd (save_player_to_lobby_file ps debug fs0) q = fs0 q).
Proof.
  intros Hok; split.
  - revert fs0 Hok; induction regs as [|[ps debug] regs IH]; intros fs0 Hok q.
    + simpl; split; [apply Hok|intros n; split; [now left|]].
      intros [H|(ps & debug & [] & _)]; exact H.
    + set (fs1 := snd (save_player_to_lobby_file ps debug fs0)).
      assert (Hstep : snd (register_all ((ps, debug) :: regs) fs0) =
                      snd (register_all regs fs1)) by reflexivity.
      rewrite Hstep.
      assert (Hsave : forall q, roster_ok (fs1 q) /\
                (forall n, In n (roster_names (fs1 q)) <->
                  In n (roster_names (fs0 q)) \/
                  (lobby_players_path debug (lobby_id ps) = q /\ code_name ps = n))).
      { intros q'; exact (save_player_names ps debug fs0 q' (Hok q')). }
      destruct (IH fs1 (fun q' => proj1 (Hsave q')) q) as [Hq Hn].
      split; [exact Hq|intros n; rewrite Hn, (proj2 (Hsave q) n)].
      split.
      * intros [[H|[Hp Hc]]|(ps' & debug' & Hin & Hp & Hc)]; [now left| |].
        -- right; exists ps, debug; split; [now left|now split].
        -- right; exists ps', debug'; split; [now right|now split].
      * intros [H|(ps' & debug' & [Heq|Hin] & Hp & Hc)]; [now left; left| |].
        -- injection Heq as -> ->; now left; right.
        -- right; exists ps', debug'; now split.
  - intros ps debug l Hl Hin q.
    rewrite save_player_state; simpl; rewrite Hl.
    apply existsb_code_name in Hin; rewrite Hin.
    unfold fs_update; destruct (String.eqb_spec q (lobby_players_path debug (lobby_id ps)))
      as [->|]; [now rewrite Hl|reflexivity].
Qed.

(** ** C3: a malformed ledger or roster on load *)

(** C3 (the code's behaviour).  Loading a malformed roster through
    [load_players_from_lobby], or a malformed ledger through
    [get_voting_dict] (hence [update_voting_dict]), raises
    [JSONDecodeError] to the caller; only [save_player_to_lobby_file]
    recovers, restarting from an empty roster. *)
Theorem malformed_load_raises (gs : GameState) (name : string)
    (ps : PlayerState) (debug : bool) (fs : FS) :
  fst (load_players_from_lobby RMalformed) = Raised JSONDecodeError /\
  fst (get_voting_dict gs VMalformed) = Raised JSONDecodeError /\
  fst (update_voting_dict gs name VMalformed) = Raised JSONDecodeError /\
  (fs (lobby_players_path debug (lobby_id ps)) = RMalformed ->
   snd (save_player_to_lobby_file ps debug fs) (lobby_players_path debug (lobby_id ps))
   = RList [ps]).
Proof.
  repeat split; intros Hm.
  rewrite save_player_state; simpl; rewrite Hm; simpl.
  unfold fs_update; now rewrite String.eqb_refl.
Qed.

(** ** C4: what the ledger stores *)

Lemma lookup_assoc_set {V} (d : list (string * V)) (k : string) (v : V) :
  lookup k (assoc_set d k v) = Some v.
Proof.
  induction d as [|[k' v'] d IH]; simpl; [now rewrite String.eqb_refl|].
  destruct (String.eqb k k') eqn:E; simpl; rewrite E; [reflexivity|exact IH].
Qed.

(** C4 (counterexample).  Player A voting for C and player B voting for
    C leave the very same ledger: under ["votes_r0"] it holds the count
    table [{A: 0, B: 0, C: 1}], with no record of who voted. *)
Lemma ledger_forgets_voter :
  code_name sample_A <> code_name sample_B /\
  snd (cast_vote (sample_game 0 0) sample_A [LInt 3] VMissing) =
  snd (cast_vote (sample_game 0 0) sample_B [LInt 3] VMissing) /\
  snd (cast_vote (sample_game 0 0) sample_A [LInt 3] VMissing) =
  VData [("votes_r0"%string, [("A"%string, 0); ("B"%string, 0); ("C"%string, 1)])].
Proof. split; [discriminate|split; vm_compute; reflexivity]. Qed.

(** C4 (as the code has it).  A vote that [update_voting_dict] accepts
    rewrites the file with the loaded ledger in which the entry
    ["votes_r<round>"] is the round's count table (the stored one, or a
    zero for each code name of the roster when the round has none yet)
    with the target's count raised by one. *)
Theorem update_voting_dict_counts (gs : GameState) (name : string)
    (vf vf' : VotingFile) (d d2 : vote_dict) :
  fst (get_voting_dict gs vf) = Done d ->
  update_voting_dict gs name vf = (Done d2, vf') ->
  let tbl := match lookup (round_key (round_number gs)) d with
             | Some t => t | None => zero_table (players gs) end in
  vf' = VData d2 /\
  exists n, lookup name tbl = Some n /\
            lookup (round_key (round_number gs)) d2 = Some (assoc_set tbl name (n + 1)).
Proof.
  intros Hg Hu; unfold update_voting_dict, bind in Hu.
  destruct (get_voting_dict gs vf) as [o vf1]; simpl in Hg; subst o.
  set (rk := round_key (round_number gs)) in *.
  cbv zeta.
  destruct (lookup rk d) as [t|] eqn:E.
  - rewrite E in Hu.
    destruct (lookup name t) as [n|] eqn:Hn; [|discriminate].
    unfold put, ret in Hu; simpl in Hu; injection Hu as <- <-.
    split; [reflexivity|exists n; split; [first [exact Hn|reflexivity]|apply lookup_assoc_set]].
  - rewrite lookup_assoc_set in Hu.
    destruct (lookup name (zero_table (players gs))) as [n|] eqn:Hn; [|discriminate].
    unfold put, ret in Hu; simpl in Hu; injection Hu as <- <-.
    split; [reflexivity|exists n; split; [first [exact Hn|reflexivity]|apply lookup_assoc_set]].
Qed.

(** ** C10: when [update_voting_dict] raises, and what is left on disk *)

(** C10 (counterexample).  With no voting file yet, a vote for a name
    that is not on the roster raises [ValueError], but the file now
    exists: [get_voting_dict] wrote the initial round-0 table first. *)
Lemma update_voting_dict_raise_writes :
  update_voting_dict (sample_game 0 0) "Z" VMissing =
  (Raised ValueError,
   VData [("votes_r0"%string, [("A"%string, 0); ("B"%string, 0); ("C"%string, 0)])]).
Proof. vm_compute; reflexivity. Qed.

(** C10 (as the code has it).  When the voting file is missing or holds
    a ledger [d], [update_voting_dict] raises if and only if the target
    is not a key of the round's table (the stored one, or the zero table
    of the roster), the exception is then [ValueError], and the file is
    left as [get_voting_dict] left it: unchanged when it existed, the
    initial round-0 table when it was missing. *)
Theorem update_voting_dict_raises_iff (gs : GameState) (name : string)
    (vf : VotingFile) (d : vote_dict) :
  fst (get_voting_dict gs vf) = Done d ->
  let tbl := match lookup (round_key (round_number gs)) d with
             | Some t => t | None => zero_table (players gs) end in
  ((exists e, fst (update_voting_dict gs name vf) = Raised e) <-> lookup name tbl = None) /\
  (forall e, fst (update_voting_dict gs name vf) = Raised e ->
     e = ValueError /\
     snd (update_voting_dict gs name vf) =
     match vf with
     | VMissing => VData [("votes_r0"%string, zero_table (players gs))]
     | _ => vf
     end).
Proof.
  intros Hg; unfold update_voting_dict, bind.
  assert (Hs : snd (get_voting_dict gs vf) =
               match vf with
               | VMissing => VData [("votes_r0"%string, zero_table (players gs))]
               | _ => vf end) by (destruct vf; reflexivity).
  destruct (get_voting_dict gs vf) as [o vf1]; simpl in Hg, Hs; subst o vf1.
  set (rk := round_key (round_number gs)).
  cbv zeta.
  destruct (lookup rk d) as [t|] eqn:E; [rewrite E|rewrite lookup_assoc_set].
  - destruct (lookup name t) as [n|] eqn:Hn; simpl.
    + split; [split; [intros [e He]; discriminate|discriminate]|intros e He; discriminate].
    + split; [split; [reflexivity|intros _; now exists ValueError]|].
      intros e He; injection He as <-; now split.
  - destruct (lookup name (zero_table (players gs))) as [n|] eqn:Hn; simpl.
    + split; [split; [intros [e He]; discriminate|discriminate]|intros e He; discriminate].
    + split; [split; [reflexivity|intros _; now exists ValueError]|].
      intros e He; injection He as <-; now split.
Qed.

(** ** C5: the top-level loop after the final screen *)

(** C5 (counterexample).  The loop also ends at a state that has a
    handler, other than [SCORE]: in round 0 the ledger's table lists [A]
    and [C] only, the voter picks [B], and [update_voting_dict] raises
    [ValueError], which leaves [main]. *)
Lemma main_loop_escapes_on_vote_error :
  main_loop sample_handler false 1%nat (Scr VOTE) (sample_game 0 0) sample_A =
  Escaped ValueError (Scr VOTE) (sample_game 0 0) sample_A /\
  has_handler (Scr VOTE) = true.
Proof. split; reflexivity. Qed.

(** C5 (as the code has it).  Whatever the other handlers do, the loop
    breaks only at a value that has no handler; it otherwise ends only
    when the handler of the current state raises, and the exception is
    the one that handler raised.  From [SCORE] the loop goes to no other
    state: it waits for the acknowledgement and then ends the game. *)
Theorem main_loop_stops_only_unrecognized
    (h : ScreenEnum -> GameState -> PlayerState -> Outcome (ScreenValue * GameState * PlayerState))
    (ack : bool) (fuel : nat) (ss : ScreenValue) (gs : GameState) (ps : PlayerState) :
  (forall ss' gs' ps',
     main_loop h ack fuel ss gs ps = Stopped ss' gs' ps' -> has_handler ss' = false) /\
  (forall e ss' gs' ps',
     main_loop h ack fuel ss gs ps = Escaped e ss' gs' ps' ->
     exists s, ss' = Scr s /\ state_handler h ack s gs' ps' = Raised e) /\
  (forall f, main_loop h ack (S f) (Scr SCORE) gs ps =
     if ack then Escaped SystemExit (Scr SCORE) gs ps else StillRunning (Scr SCORE) gs ps).
Proof.
  split; [|split; [|intros f; simpl; unfold score_screen_NEW; destruct ack; reflexivity]].
  - revert ss gs ps; induction fuel as [|fuel IH]; intros ss gs ps ss' gs' ps' H;
      simpl in H; [discriminate|].
    destruct ss as [s|n].
    + destruct (state_handler h ack s gs ps) as [[[ss1 gs1] ps1]|e|];
        [exact (IH _ _ _ _ _ _ H)|discriminate|discriminate].
    + now injection H as <- _ _.
  - revert ss gs ps; induction fuel as [|fuel IH]; intros ss gs ps e ss' gs' ps' H;
      simpl in H; [discriminate|].
    destruct ss as [s|n]; [|discriminate].
    destruct (state_handler h ack s gs ps) as [[[ss1 gs1] ps1]|e0|] eqn:E;
      [exact (IH _ _ _ _ _ _ _ H)| |discriminate].
    injection H as <- <- <- <-; exists s; split; [reflexivity|exact E].
Qed.

(** ** C9: replaying the round-start icebreaker step *)

(** C9 (counterexample).  In round 2 with no icebreaker asked yet,
    replaying the round-start step twice pops two prompts. *)
Lemma icebreaker_replay_pops_twice :
  fst (replay_round_start 2 (sample_game 2 0) sample_A []) =
  Done (with_icebreakers (sample_game 2 0) 2 ["q3"%string]).
Proof. vm_compute; reflexivity. Qed.

Lemma replay_skip (n : nat) (gs : GameState) (ps : PlayerState) (log : ChatLog) :
  round_number gs < ice_asked gs ->
  replay_round_start n gs ps log = (Done gs, log).
Proof.
  intros Hlt; induction n as [|n IH]; [reflexivity|].
  simpl; unfold bind, play_game_round_start.
  replace (ice_asked gs <=? round_number gs) with false by (symmetry; apply Z.leb_gt; lia).
  exact IH.
Qed.

Lemma with_icebreakers_same (gs : GameState) :
  with_icebreakers gs (ice_asked gs) (icebreakers gs) = gs.
Proof. destruct gs; reflexivity. Qed.

(** C9 (as the code has it).  [n] replays of the round-start step pop
    the queue [min n (round - asked + 1)] times (none once the counter
    of asked icebreakers exceeds the round number) and raise
    [IndexError] if the queue is shorter than that.  So from a state
    whose counter is at least the round number (at the start of a round
    of normal play it equals the round number) all the replays together
    pop at most once, from a state whose counter exceeds the round
    number they pop nothing, and from a counter below the round number
    every replay pops until the counter exceeds the round number. *)
Theorem icebreaker_replay_at_most_once (n : nat) (gs : GameState) (ps : PlayerState)
    (log : ChatLog) :
  let pops := Nat.min n (Z.to_nat (round_number gs - ice_asked gs + 1)) in
  fst (replay_round_start n gs ps log) =
    (if (pops <=? List.length (icebreakers gs))%nat
     then Done (with_icebreakers gs (ice_asked gs + Z.of_nat pops)
                                 (skipn pops (icebreakers gs)))
     else Raised IndexError) /\
  (round_number gs <= ice_asked gs -> (pops <= 1)%nat) /\
  (round_number gs < ice_asked gs -> pops = 0%nat).
Proof.
  intros pops; split; [|split; intros H; unfold pops; lia].
  unfold pops; clear pops.
  revert gs log; induction n as [|n IH]; intros gs log.
  - simpl; rewrite Z.add_0_r, with_icebreakers_same; reflexivity.
  - simpl replay_round_start; unfold bind, play_game_round_start.
    destruct (Z.leb_spec (ice_asked gs) (round_number gs)) as [Hask|Hask].
    + replace (Z.to_nat (round_number gs - ice_asked gs + 1))
        with (S (Z.to_nat (round_number gs - (ice_asked gs + 1) + 1))) by lia.
      rewrite <- Nat.succ_min_distr.
      unfold ask_icebreaker.
      destruct (icebreakers gs) as [|q rest] eqn:Hq; [reflexivity|].
      set (gs' := with_icebreakers gs (ice_asked gs + 1) rest).
      assert (Hgo : forall log', fst (replay_round_start n gs' ps log') =
        (if (Nat.min n (Z.to_nat (round_number gs - (ice_asked gs + 1) + 1))
               <=? List.length rest)%nat
         then Done (with_icebreakers gs
                      (ice_asked gs + Z.of_nat (S (Nat.min n
                         (Z.to_nat (round_number gs - (ice_asked gs + 1) + 1)))))
                      (skipn (S (Nat.min n
                         (Z.to_nat (round_number gs - (ice_asked gs + 1) + 1)))) (q :: rest)))
         else Raised IndexError)).
      { intros log'; rewrite (IH gs' log').
        change (round_number gs') with (round_number gs).
        change (ice_asked gs') with (ice_asked gs + 1).
        change (icebreakers gs') with rest.
        set (p := Nat.min n (Z.to_nat (round_number gs - (ice_asked gs + 1) + 1))).
        replace (ice_asked gs + Z.of_nat (S p)) with (ice_asked gs + 1 + Z.of_nat p) by lia.
        reflexivity. }
      destruct (timekeeper ps); simpl;
        [destruct (replay_round_start n gs' ps (log ++ [GmMessage q])) as [o l'] eqn:E;
         specialize (Hgo (log ++ [GmMessage q]))
        |destruct (replay_round_start n gs' ps log) as [o l'] eqn:E; specialize (Hgo log)];
        rewrite E in Hgo; exact Hgo.
    + replace (Z.to_nat (round_number gs - ice_asked gs + 1)) with 0%nat by lia.
      rewrite Nat.min_0_r; simpl.
      rewrite (replay_skip n gs ps log Hask); simpl.
      rewrite Z.add_0_r, with_icebreakers_same; reflexivity.
Qed.

(* ================================================================== *)
(** * Witnesses: the theorems at concrete inputs *)

(** The spec's three ledgers, tallied in round 0 of the sample lobby. *)
Example tally_tie_no_elimination :
  tally (sample_game 0 0) sample_C
        [("votes_r0"%string, [("A"%string, 3); ("B"%string, 3)])] =
  Done (GmMessage msg_no_consensus, with_outcome (sample_game 0 0) msg_no_consensus, sample_C).
Proof. vm_compute; reflexivity. Qed.

Example tally_all_zero_no_elimination :
  tally (sample_game 0 0) sample_C [("votes_r0"%string, [("A"%string, 0)])] =
  Done (GmMessage msg_no_votes, with_outcome (sample_game 0 0) msg_no_votes, sample_C).
Proof. vm_compute; reflexivity. Qed.

Lemma tally_plurality_witness :
  exists msg gs' ps',
    tally (sample_game 0 0) sample_C
          [("votes_r0"%string, [("A"%string, 2); ("B"%string, 1)])] = Done (msg, gs', ps') /\
    players gs' = [sample_B; sample_C] /\
    players_voted_off gs' = [set_still_in_game sample_A false].
Proof.
  destruct (tally_plurality (sample_game 0 0) sample_C
              [("votes_r0"%string, [("A"%string, 2); ("B"%string, 1)])]
              [("A"%string, 2); ("B"%string, 1)] 2)
    as (msg & gs' & ps' & Ht & _).
  - reflexivity.
  - constructor; [intros [H|[]]; discriminate|constructor; [intros []|constructor]].
  - split; [exists "A"%string; now left|].
    intros k v [H|[H|[]]]; injection H as _ <-; lia.
  - intros t [m [[H|[H|[]]] _]]; injection H as <- _; simpl; auto.
  - exists msg, gs', ps'; split; [exact Ht|].
    vm_compute in Ht; injection Ht as <- <- <-; split; reflexivity.
Defined.

Lemma voting_round_next_screen_witness :
  match voting_round (sample_game 0 0) sample_A [LInt 2]
          [VData [("votes_r0"%string, [("A"%string, 0); ("B"%string, 2); ("C"%string, 0)])]]
          VMissing with
  | (Done (ss, gs2, _), _) => round_number gs2 = 1 /\ ss = SCORE
  | _ => False
  end.
Proof.
  destruct (voting_round (sample_game 0 0) sample_A [LInt 2]
              [VData [("votes_r0"%string, [("A"%string, 0); ("B"%string, 2); ("C"%string, 0)])]]
              VMissing) as [[[[ss gs2] ps2]| |] vf'] eqn:E;
    [|vm_compute in E; discriminate|vm_compute in E; discriminate].
  destruct (voting_round_next_screen _ _ _ _ _ _ _ _ _ E) as (_ & Hr & _ & Hs & _).
  split; [rewrite Hr; reflexivity|].
  apply Hs; right; left; intros p Hp.
  vm_compute in E; injection E as _ <- _ _.
  destruct Hp as [<-|[<-|[]]]; reflexivity.
Defined.

Lemma voting_round_increments_round_witness :
  match voting_round (sample_game 0 0) sample_A [LInt 1; LText; LInt 3]
          [VData [("votes_r0"%string, [("A"%string, 0); ("B"%string, 1); ("C"%string, 1)])]]
          VMissing with
  | (Done (ss, gs2, _), _) => round_number gs2 = 1
  | _ => False
  end.
Proof.
  destruct (voting_round (sample_game 0 0) sample_A [LInt 1; LText; LInt 3]
              [VData [("votes_r0"%string, [("A"%string, 0); ("B"%string, 1); ("C"%string, 1)])]]
              VMissing) as [[[[ss gs2] ps2]| |] vf'] eqn:E;
    [|vm_compute in E; discriminate|vm_compute in E; discriminate].
  rewrite (proj1 (voting_round_increments_round _ _ _ _ _ _ _ _ _ E)); reflexivity.
Defined.

Lemma collect_vote_rejects_self_witness :
  collect_vote (sample_game 0 0) sample_A [LInt 1; LText; LInt 2] = Done "B"%string /\
  "B"%string <> code_name sample_A.
Proof.
  split; [vm_compute; reflexivity|].
  apply (proj1 (collect_vote_rejects_self (sample_game 0 0) sample_A
                  [LInt 1; LText; LInt 2] "B" VMissing)).
  vm_compute; reflexivity.
Defined.

Lemma registration_roster_unique_witness :
  roster_ok (snd (register_all [(sample_A, false); (sample_B, false); (sample_A, false)]
                               (fun _ => RMissing))
                 (lobby_players_path false 0)).
Proof.
  exact (proj1 (proj1 (registration_roster_unique
                         [(sample_A, false); (sample_B, false); (sample_A, false)]
                         (fun _ => RMissing) (fun q => NoDup_nil string))
                      (lobby_players_path false 0))).
Defined.

Lemma malformed_load_raises_witness :
  snd (save_player_to_lobby_file sample_A false (fun _ => RMalformed))
      (lobby_players_path false 0) = RList [sample_A].
Proof.
  exact (proj2 (proj2 (proj2 (malformed_load_raises (sample_game 0 0) "A" sample_A false
                                (fun _ => RMalformed))))
               eq_refl).
Defined.

Lemma update_voting_dict_counts_witness :
  lookup "votes_r0"
    [("votes_r0"%string, [("A"%string, 0); ("B"%string, 0); ("C"%string, 1)])] =
  Some [("A"%string, 0); ("B"%string, 0); ("C"%string, 1)].
Proof.
  destruct (update_voting_dict_counts (sample_game 0 0) "C" VMissing
              (VData [("votes_r0"%string, [("A"%string, 0); ("B"%string, 0); ("C"%string, 1)])])
              [("votes_r0"%string, [("A"%string, 0); ("B"%string, 0); ("C"%string, 0)])]
              [("votes_r0"%string, [("A"%string, 0); ("B"%string, 0); ("C"%string, 1)])]
              eq_refl eq_refl) as [_ [n [Hn Hl]]].
  vm_compute in Hn; injection Hn as <-.
  vm_compute in Hl |- *; exact Hl.
Defined.

Lemma update_voting_dict_raises_iff_witness :
  snd (update_voting_dict (sample_game 0 0) "Z" VMissing) =
  VData [("votes_r0"%string, zero_table (players (sample_game 0 0)))].
Proof.
  exact (proj2 (proj2 (update_voting_dict_raises_iff (sample_game 0 0) "Z" VMissing
                         [("votes_r0"%string, zero_table (players (sample_game 0 0)))] eq_refl)
                      ValueError eq_refl)).
Defined.

Lemma main_loop_stops_only_unrecognized_witness :
  (exists s, Scr VOTE = Scr s /\
     state_handler sample_handler true s (sample_game 0 0) sample_A = Raised ValueError) /\
  main_loop sample_handler true 3%nat (Scr SCORE) (sample_game 0 0) sample_A =
  Escaped SystemExit (Scr SCORE) (sample_game 0 0) sample_A.
Proof.
  split.
  - exact (proj1 (proj2 (main_loop_stops_only_unrecognized sample_handler true 2%nat
                           (Scr INTRO) (sample_game 0 0) sample_A))
                 ValueError (Scr VOTE) (sample_game 0 0) sample_A eq_refl).
  - exact (proj2 (proj2 (main_loop_stops_only_unrecognized sample_handler true 0%nat
                           (Scr SCORE) (sample_game 0 0) sample_A)) 2%nat).
Defined.

Lemma icebreaker_replay_at_most_once_witness :
  fst (replay_round_start 3 (sample_game 1 1) sample_A []) =
    Done (with_icebreakers (sample_game 1 1) 2 ["q2"; "q3"]%string) /\
  fst (replay_round_start 3 (sample_game 2 0) sample_A []) =
    Done (with_icebreakers (sample_game 2 0) 3 []) /\
  fst (replay_round_start 2 (sample_game 1 2) sample_A []) =
    Done (with_icebreakers (sample_game 1 2) 2 ["q1"; "q2"; "q3"]%string).
Proof.
  split; [|split].
  - rewrite (proj1 (icebreaker_replay_at_most_once 3 (sample_game 1 1) sample_A [])).
    vm_compute; reflexivity.
  - rewrite (proj1 (icebreaker_replay_at_most_once 3 (sample_game 2 0) sample_A [])).
    vm_compute; reflexivity.
  - rewrite (proj1 (icebreaker_replay_at_most_once 2 (sample_game 1 2) sample_A [])).
    vm_compute; reflexivity.
Defined.

(* ================================================================== *)
(** * Further properties of the code *)

(** ** Dict and sum helpers *)

Lemma lookup_assoc_set_cases {V} (d : list (string * V)) (k n : string) (v : V) :
  lookup n (assoc_set d k v) = if String.eqb n k then Some v else lookup n d.
Proof.
  induction d as [|[k' v'] d IH]; simpl; [reflexivity|].
  destruct (String.eqb k k') eqn:Ekk; simpl.
  - apply String.eqb_eq in Ekk; subst k'; destruct (String.eqb n k); reflexivity.
  - rewrite IH.
    destruct (String.eqb n k') eqn:Enk'; destruct (String.eqb n k) eqn:Enk; try reflexivity.
    apply String.eqb_eq in Enk'; apply String.eqb_eq in Enk; subst.
    rewrite String.eqb_refl in Ekk; discriminate.
Qed.

Lemma fold_add_acc (l : list Z) (a : Z) : fold_left Z.add l a = a + fold_left Z.add l 0.
Proof.
  revert a; induction l as [|x l IH]; intros a; simpl; [lia|].
  rewrite (IH (a + x)), (IH x); lia.
Qed.

Lemma sum_votes_nil : sum_votes [] = 0.
Proof. reflexivity. Qed.

Lemma sum_votes_cons (k : string) (v : Z) (t : round_table) :
  sum_votes ((k, v) :: t) = v + sum_votes t.
Proof. unfold sum_votes; simpl; rewrite (fold_add_acc (map snd t) v); lia. Qed.

Lemma sum_votes_assoc_set (t : round_table) (k : string) (v : Z) :
  sum_votes (assoc_set t k v) =
  sum_votes t + v - match lookup k t with Some n => n | None => 0 end.
Proof.
  induction t as [|[k' v'] t IH]; cbn [assoc_set lookup].
  - rewrite sum_votes_cons, sum_votes_nil; lia.
  - destruct (String.eqb k k'); rewrite !sum_votes_cons; [lia|rewrite IH; lia].
Qed.

Lemma zero_table_lookup_gen (ps : list PlayerState) :
  forall (acc : round_table) (K : list string),
  (forall n, lookup n acc = if existsb (String.eqb n) K then Some 0 else None) ->
  forall n, lookup n (fold_left (fun acc p => assoc_set acc (code_name p) 0) ps acc) =
            if existsb (String.eqb n) (K ++ map code_name ps) then Some 0 else None.
Proof.
  induction ps as [|p ps IH]; intros acc K Hacc n; simpl.
  - rewrite app_nil_r; apply Hacc.
  - replace (K ++ code_name p :: map code_name ps)
      with ((K ++ [code_name p]) ++ map code_name ps) by (rewrite <- app_assoc; reflexivity).
    apply IH; intros m.
    rewrite lookup_assoc_set_cases, existsb_app, Hacc; simpl.
    destruct (String.eqb m (code_name p)), (existsb (String.eqb m) K); reflexivity.
Qed.

Lemma zero_table_lookup (ps : list PlayerState) (n : string) :
  lookup n (zero_table ps) =
  if existsb (String.eqb n) (map code_name ps) then Some 0 else None.
Proof. unfold zero_table; now apply (zero_table_lookup_gen ps [] []). Qed.

Lemma zero_table_zeros (ps : list PlayerState) :
  Forall (fun kv => snd kv = 0) (zero_table ps).
Proof.
  unfold zero_table.
  assert (Hset : forall t k, Forall (fun kv : string * Z => snd kv = 0) t ->
                   Forall (fun kv : string * Z => snd kv = 0) (assoc_set t k 0)).
  { induction t as [|[k' v'] t IH]; intros k Ht; simpl; [now constructor|].
    inversion Ht as [|? ? Hv Ht']; subst.
    destruct (String.eqb k k'); constructor; auto. }
  generalize (@Forall_nil (string * Z) (fun kv => snd kv = 0)).
  generalize (@nil (string * Z)).
  induction ps as [|p ps IH]; intros acc Hacc; simpl; [exact Hacc|].
  apply IH, Hset, Hacc.
Qed.

Lemma sum_votes_zeros (t : round_table) :
  Forall (fun kv => snd kv = 0) t -> sum_votes t = 0.
Proof.
  induction t as [|[k v] t IH]; intros H; [reflexivity|].
  inversion H as [|? ? Hv Ht]; subst; simpl in Hv.
  rewrite sum_votes_cons, IH; [lia|exact Ht].
Qed.

Lemma existsb_code_name_in (l : list PlayerState) (n : string) :
  existsb (String.eqb n) (map code_name l) = true <-> In n (map code_name l).
Proof.
  rewrite existsb_exists; split.
  - intros [x [Hx Heq]]; apply String.eqb_eq in Heq; now subst.
  - intros Hin; exists n; split; [exact Hin|apply String.eqb_refl].
Qed.

(** ** The ballot *)

Lemma insert_by_code_name_in (p q : PlayerState) (l : list PlayerState) :
  In q (insert_by_code_name p l) <-> q = p \/ In q l.
Proof.
  induction l as [|r l IH]; simpl; [intuition congruence|].
  destruct (String.ltb (code_name p) (code_name r)); simpl; [intuition congruence|].
  rewrite IH; intuition congruence.
Qed.

Lemma sort_by_code_name_in (l : list PlayerState) (q : PlayerState) :
  In q (sort_by_code_name l) <-> In q l.
Proof.
  unfold sort_by_code_name.
  enough (H : forall acc, In q (fold_left (fun acc p => insert_by_code_name p acc) l acc)
                          <-> In q acc \/ In q l) by (rewrite H; simpl; tauto).
  induction l as [|p l IH]; intros acc; simpl; [tauto|].
  rewrite IH, insert_by_code_name_in; intuition congruence.
Qed.

Lemma collect_loop_in (eligible : list PlayerState) (me : string) :
  forall lines name, collect_loop eligible me lines = Done name ->
  exists p, In p eligible /\ code_name p = name.
Proof.
  fix IH 1.
  intros [|l rest] name H; simpl in H; [discriminate|].
  destruct l as [v|].
  - destruct ((1 <=? v) && (v <=? Z.of_nat (List.length eligible))).
    + destruct (nth_error eligible (Z.to_nat (v - 1))) as [p|] eqn:Hp; [|discriminate].
      destruct (String.eqb (code_name p) me).
      * destruct rest as [|x rest']; [discriminate|exact (IH rest' name H)].
      * injection H as <-; exists p; split; [|reflexivity].
        now apply nth_error_In in Hp.
    + destruct rest as [|x rest']; [discriminate|exact (IH rest' name H)].
  - destruct rest as [|x rest']; [discriminate|exact (IH rest' name H)].
Qed.

Lemma collect_loop_no_raise (eligible : list PlayerState) (me : string) :
  forall lines e, collect_loop eligible me lines <> Raised e.
Proof.
  fix IH 1.
  intros [|l rest] e H; simpl in H; [discriminate|].
  destruct l as [v|].
  - destruct ((1 <=? v) && (v <=? Z.of_nat (List.length eligible))) eqn:Hv.
    + destruct (nth_error eligible (Z.to_nat (v - 1))) as [p|] eqn:Hp.
      * destruct (String.eqb (code_name p) me); [|discriminate].
        destruct rest as [|x rest']; [discriminate|exact (IH rest' e H)].
      * apply nth_error_None in Hp.
        apply andb_true_iff in Hv as [H1 H2]; apply Z.leb_le in H1, H2; lia.
    + destruct rest as [|x rest']; [discriminate|exact (IH rest' e H)].
  - destruct rest as [|x rest']; [discriminate|exact (IH rest' e H)].
Qed.

(** X: the ballot offers only the active roster.  A name [collect_vote]
    returns is the code name of a player in [gs.players], other than the
    voter. *)
Theorem collect_vote_in_roster (gs : GameState) (ps : PlayerState)
    (lines : list Line) (name : string) :
  collect_vote gs ps lines = Done name ->
  exists p, In p (players gs) /\ code_name p = name /\ name <> code_name ps.
Proof.
  intros H.
  destruct (collect_loop_in _ _ _ _ H) as [p [Hp Hn]].
  exists p; split; [exact (proj1 (sort_by_code_name_in _ _) Hp)|split; [exact Hn|]].
  exact (collect_loop_not_self _ _ _ _ H).
Qed.

(** ** The ledger *)

(** X: a missing voting file is created with one table, ["votes_r0"],
    that gives 0 to exactly the code names of the roster. *)
Theorem get_voting_dict_initial (gs : GameState) (n : string) :
  exists t, get_voting_dict gs VMissing = (Done [("votes_r0"%string, t)], VData [("votes_r0"%string, t)]) /\
    sum_votes t = 0 /\
    (lookup n t = Some 0 <-> In n (map code_name (players gs))) /\
    (~ In n (map code_name (players gs)) -> lookup n t = None).
Proof.
  exists (zero_table (players gs)); split; [reflexivity|].
  split; [apply sum_votes_zeros, zero_table_zeros|].
  rewrite zero_table_lookup, <- existsb_code_name_in.
  destruct (existsb (String.eqb n) (map code_name (players gs))).
  - split; [tauto|intros H; exfalso; now apply H].
  - split; [split; discriminate|intros _; reflexivity].
Qed.

(** X: an accepted vote adds exactly one vote to the current round.
    The ledger [update_voting_dict] writes and returns counts one vote
    more in ["votes_r<round>"] than the ledger it loaded (a round with no
    table yet counting 0), and has the same entry as that ledger under
    every other key. *)
Theorem update_voting_dict_adds_one_vote (gs : GameState) (name : string)
    (vf vf1 vf' : VotingFile) (d d2 : vote_dict) :
  get_voting_dict gs vf = (Done d, vf1) ->
  update_voting_dict gs name vf = (Done d2, vf') ->
  vf' = VData d2 /\
  sum_votes (ledger_table d2 (round_number gs)) =
    sum_votes (ledger_table d (round_number gs)) + 1 /\
  (forall k, k <> round_key (round_number gs) -> lookup k d2 = lookup k d).
Proof.
  intros Hg Hu; unfold update_voting_dict, bind in Hu; rewrite Hg in Hu.
  unfold ledger_table.
  set (rk := round_key (round_number gs)) in *.
  cbv zeta in Hu.
  assert (Hother : forall (d1 : vote_dict) t k, k <> rk ->
            lookup k (assoc_set d1 rk t) = lookup k d1).
  { intros d1 t k Hk; rewrite lookup_assoc_set_cases.
    destruct (String.eqb k rk) eqn:E; [now apply String.eqb_eq in E|reflexivity]. }
  destruct (lookup rk d) as [t|] eqn:E.
  - rewrite E in Hu.
    destruct (lookup name t) as [n|] eqn:Hn; [|discriminate].
    unfold put, ret in Hu; simpl in Hu; injection Hu as <- <-.
    split; [reflexivity|split].
    + rewrite lookup_assoc_set, sum_votes_assoc_set, Hn; lia.
    + intros k Hk; now apply Hother.
  - rewrite lookup_assoc_set in Hu.
    destruct (lookup name (zero_table (players gs))) as [n|] eqn:Hn; [|discriminate].
    unfold put, ret in Hu; simpl in Hu; injection Hu as <- <-.
    split; [reflexivity|split].
    + rewrite lookup_assoc_set, sum_votes_assoc_set, Hn,
        (sum_votes_zeros _ (zero_table_zeros _)), sum_votes_nil; lia.
    + intros k Hk; rewrite !Hother by exact Hk; reflexivity.
Qed.

(** X: what [count_votes] raises and returns.  It raises [KeyError]
    exactly when the ledger has no table for the current round, and
    [ValueError] exactly when that table is empty; otherwise it returns
    a non-empty list of names and a count [m] that is the largest count
    of the table, the names being exactly those with [m] votes. *)
Theorem count_votes_outcomes (d : vote_dict) (gs : GameState) :
  (count_votes d gs = Raised KeyError <-> lookup (round_key (round_number gs)) d = None) /\
  (count_votes d gs = Raised ValueError <-> lookup (round_key (round_number gs)) d = Some []) /\
  (forall top m, count_votes d gs = Done (top, m) ->
     exists tbl, lookup (round_key (round_number gs)) d = Some tbl /\
       top <> [] /\ is_max m tbl /\ (forall k, In k top <-> In (k, m) tbl)) /\
  (forall e, count_votes d gs = Raised e -> e = KeyError \/ e = ValueError) /\
  count_votes d gs <> Blocked.
Proof.
  destruct (lookup (round_key (round_number gs)) d) as [tbl|] eqn:E.
  - destruct tbl as [|[k0 v0] rest].
    + unfold count_votes; rewrite E.
      split; [split; discriminate|].
      split; [split; reflexivity|].
      split; [intros top m H; discriminate|].
      split; [intros e H; injection H as <-; now right|discriminate].
    + destruct (count_votes_max d gs ((k0, v0) :: rest) E ltac:(discriminate))
        as [m [Hm Hc]].
      rewrite Hc.
      split; [split; discriminate|].
      split; [split; discriminate|].
      split; [|split; [intros e H; discriminate|discriminate]].
      intros top m' H; injection H as <- <-.
      exists ((k0, v0) :: rest); split; [reflexivity|split; [|split; [exact Hm|intros k; exact (in_top ((k0, v0) :: rest) m k)]]].
      destruct Hm as [[k Hk] _].
      assert (Hin : In k (map fst (filter (fun kv => snd kv =? m) ((k0, v0) :: rest))))
        by (now apply in_top).
      intros Hnil; change (map fst (filter (fun kv => snd kv =? m) ((k0, v0) :: rest)) = []) in Hnil;
      rewrite Hnil in Hin; contradiction.
  - unfold count_votes; rewrite E.
    split; [split; reflexivity|].
    split; [split; discriminate|].
    split; [intros top m H; discriminate|].
    split; [intros e H; injection H as <-; now left|discriminate].
Qed.

(** ** Elimination and the roster *)

Lemma nodup_map_filter {A B} (h : A -> B) (f : A -> bool) (l : list A) :
  NoDup (map h l) -> NoDup (map h (filter f l)).
Proof.
  induction l as [|a l IH]; simpl; intros Hnd; [constructor|].
  inversion Hnd as [|? ? Hnin Hnd']; subst.
  destruct (f a); simpl; [|now apply IH].
  constructor; [|now apply IH].
  intros Hin; apply Hnin.
  apply in_map_iff in Hin as [x [Hx Hin]]; apply filter_In in Hin as [Hin _].
  rewrite <- Hx; now apply in_map.
Qed.

Lemma filter_remove_one (l : list PlayerState) (p : PlayerState) :
  NoDup (map code_name l) -> In p l ->
  S (List.length (filter (fun q => negb (String.eqb (code_name q) (code_name p))) l)) =
  List.length l.
Proof.
  induction l as [|a l IH]; intros Hnd Hin; [contradiction|].
  simpl in Hnd; inversion Hnd as [|? ? Hnin Hnd']; subst.
  destruct Hin as [->|Hin]; simpl.
  - rewrite String.eqb_refl; simpl; f_equal.
    rewrite filter_ext_in with (g := fun _ => true), filter_true; [reflexivity|].
    intros q Hq; destruct (String.eqb (code_name q) (code_name p)) eqn:E; [|reflexivity].
    apply String.eqb_eq in E; exfalso; apply Hnin; rewrite <- E; now apply in_map.
  - destruct (String.eqb (code_name a) (code_name p)) eqn:E; simpl.
    + apply String.eqb_eq in E; exfalso; apply Hnin; rewrite E; now apply in_map.
    + f_equal; now apply IH.
Qed.

(** X: an elimination moves exactly one player.  When the roster's code
    names are distinct, [process_voting_result] keeps the number of
    active plus voted-off players, keeps the active roster a part of the
    old one, and keeps its code names distinct. *)
Theorem process_voting_result_roster (gs : GameState) (ps : PlayerState)
    (m : Z) (top : list string) (msg : Display) (gs' : GameState) (ps' : PlayerState) :
  NoDup (map code_name (players gs)) ->
  process_voting_result gs ps m top = Done (msg, gs', ps') ->
  (List.length (players gs') + List.length (players_voted_off gs') =
    List.length (players gs) + List.length (players_voted_off gs))%nat /\
  incl (players gs') (players gs) /\
  NoDup (map code_name (players gs')).
Proof.
  intros Hnd H; unfold process_voting_result in H.
  destruct (1 <? List.length top)%nat.
  { injection H as _ <- _; simpl; split; [lia|split; [apply incl_refl|exact Hnd]]. }
  destruct (m =? 0).
  { injection H as _ <- _; simpl; split; [lia|split; [apply incl_refl|exact Hnd]]. }
  destruct top as [|out rest]; [discriminate|].
  destruct (find (fun p => String.eqb (code_name p) out) (players gs)) as [p|] eqn:Hf.
  - apply find_some in Hf as [Hp Heq]; apply String.eqb_eq in Heq; subst out.
    assert (Hgs : (List.length (filter (fun q => negb (String.eqb (code_name q) (code_name p)))
                                      (players gs))
                  + List.length (players_voted_off gs ++ [set_still_in_game p false]) =
                  List.length (players gs) + List.length (players_voted_off gs))%nat /\
                  incl (filter (fun q => negb (String.eqb (code_name q) (code_name p)))
                               (players gs)) (players gs) /\
                  NoDup (map code_name (filter (fun q => negb (String.eqb (code_name q)
                                                                         (code_name p)))
                                               (players gs)))).
    { split; [|split].
      - rewrite length_app; simpl.
        pose proof (filter_remove_one _ _ Hnd Hp); lia.
      - intros x Hx; now apply filter_In in Hx as [Hx _].
      - now apply nodup_map_filter. }
    destruct (String.eqb (code_name ps) (code_name p)); injection H as _ <- _; exact Hgs.
  - injection H as _ <- _; simpl; split; [lia|split; [apply incl_refl|exact Hnd]].
Qed.

Lemma tally_shape (gs : GameState) (ps : PlayerState) (d : vote_dict)
    (msg : Display) (gs1 : GameState) (ps1 : PlayerState) :
  tally gs ps d = Done (msg, gs1, ps1) ->
  (ps1 = ps \/ ps1 = set_still_in_game ps false) /\ incl (players gs1) (players gs).
Proof.
  unfold tally, process_voting_result.
  destruct (count_votes d gs) as [[top mx]| |]; try discriminate.
  destruct (1 <? List.length top)%nat.
  { intros H; injection H as _ <- <-; split; [now left|apply incl_refl]. }
  destruct (mx =? 0).
  { intros H; injection H as _ <- <-; split; [now left|apply incl_refl]. }
  destruct top as [|out rest]; [discriminate|].
  destruct (find _ (players gs)) as [p|].
  - assert (Hi : incl (filter (fun q => negb (String.eqb (code_name q) out)) (players gs))
                      (players gs))
      by (intros x Hx; now apply filter_In in Hx as [Hx _]).
    destruct (String.eqb (code_name ps) out); intros H; injection H as _ <- <-;
      split; [now right|exact Hi|now left|exact Hi].
  - intros H; injection H as _ <- <-; split; [now left|apply incl_refl].
Qed.

(** X: after a completed voting round, the local player is still marked
    in the game only if it was before the round and the new active
    roster lists a player with its code name who is in the game; the
    player keeps its code name and the roster only loses players. *)
Theorem voting_round_player_flag (gs : GameState) (ps : PlayerState) (lines : list Line)
    (obs : list VotingFile) (vf vf' : VotingFile) (ss : ScreenEnum)
    (gs2 : GameState) (ps2 : PlayerState) :
  voting_round gs ps lines obs vf = (Done (ss, gs2, ps2), vf') ->
  code_name ps2 = code_name ps /\
  incl (players gs2) (players gs) /\
  (still_in_game ps2 = true ->
   still_in_game ps = true /\
   exists p, In p (players gs2) /\ still_in_game p = true /\ code_name p = code_name ps).
Proof.
  unfold voting_round; intros H.
  apply bind_done in H as (u & vf1 & _ & H).
  apply bind_done in H as (d & vf2 & _ & H).
  apply bind_done in H as ([[msg gs1] ps1] & vf3 & Ht & H).
  apply lift_done in Ht as [Ht _].
  destruct (tally_shape _ _ _ _ _ _ Ht) as [Hps1 Hincl].
  assert (Hcn : code_name ps1 = code_name ps) by (destruct Hps1 as [->| ->]; reflexivity).
  set (ps2' := if existsb (fun p => still_in_game p && String.eqb (code_name p) (code_name ps1))
                          (players gs1)
               then ps1 else set_still_in_game ps1 false) in H.
  assert (Hres : ps2 = ps2' /\ gs2 = with_round gs1 (round_number gs1 + 1) false)
    by (destruct (should_transition_to_score _); apply ret_done in H as [H _];
        injection H as -> <- <-; split; reflexivity).
  destruct Hres as [-> ->]; simpl.
  unfold ps2'.
  destruct (existsb _ (players gs1)) eqn:Hex.
  - split; [exact Hcn|split; [exact Hincl|]].
    intros Hs; split.
    + destruct Hps1 as [<- | ->]; [exact Hs|discriminate].
    + apply existsb_exists in Hex as [p [Hp Hq]].
      apply andb_true_iff in Hq as [Hq1 Hq2]; apply String.eqb_eq in Hq2.
      exists p; split; [exact Hp|split; [exact Hq1|congruence]].
  - split; [exact Hcn|split; [exact Hincl|discriminate]].
Qed.

(** ** The polling loop and the vote cast *)

Lemma get_voting_dict_file (gs : GameState) (vf vf1 : VotingFile) (d : vote_dict) :
  get_voting_dict gs vf = (Done d, vf1) -> vf1 = VData d.
Proof.
  destruct vf; simpl; intros H; inversion H; subst; reflexivity.
Qed.

(** X: the polling loop of [voting_round] leaves only with a ledger
    whose current round counts at least [needed] votes; that ledger is
    what one of the polled files held (or the initial table, written to
    disk, when the file was missing), and it is on disk afterwards. *)
Theorem wait_for_votes_enough (gs : GameState) (needed : nat) (obs : list VotingFile)
    (vf vf' : VotingFile) (d : vote_dict) :
  wait_for_votes gs needed obs vf = (Done d, vf') ->
  vf' = VData d /\
  Z.of_nat needed <= sum_votes (ledger_table d (round_number gs)) /\
  exists o, In o obs /\ get_voting_dict gs o = (Done d, VData d).
Proof.
  revert vf; induction obs as [|o obs IH]; intros vf H; [discriminate|].
  unfold wait_for_votes in H; fold wait_for_votes in H.
  unfold bind at 1, put in H.
  unfold bind in H.
  destruct (get_voting_dict gs o) as [[d0| |] vf0] eqn:Eg; try discriminate.
  pose proof (get_voting_dict_file _ _ _ _ Eg) as ->.
  destruct (Z.of_nat needed <=? sum_votes (ledger_table d0 (round_number gs))) eqn:Hs.
  - unfold ledger_table in Hs; rewrite Hs in H.
    unfold ret in H; injection H as <- <-.
    split; [reflexivity|split; [now apply Z.leb_le|exists o; split; [now left|exact Eg]]].
  - unfold ledger_table in Hs; rewrite Hs in H.
    destruct (IH _ H) as [H1 [H2 [o' [Ho' Hg']]]].
    split; [exact H1|split; [exact H2|exists o'; split; [now right|exact Hg']]].
Qed.

Lemma update_voting_dict_done (gs : GameState) (name : string) (vf vf1 : VotingFile)
    (d : vote_dict) :
  get_voting_dict gs vf = (Done d, vf1) ->
  In name (map code_name (players gs)) ->
  (forall t, lookup (round_key (round_number gs)) d = Some t -> lookup name t <> None) ->
  exists d2, update_voting_dict gs name vf = (Done d2, VData d2).
Proof.
  intros Hg Hin Hcov; unfold update_voting_dict, bind; rewrite Hg.
  set (rk := round_key (round_number gs)) in *.
  cbv zeta.
  destruct (lookup rk d) as [t|] eqn:E.
  - rewrite E.
    destruct (lookup name t) as [n|] eqn:Hn; [|exfalso; now apply (Hcov t)].
    eexists; reflexivity.
  - rewrite lookup_assoc_set, zero_table_lookup.
    apply existsb_code_name_in in Hin; rewrite Hin.
    eexists; reflexivity.
Qed.

(** X: a vote cast against a ledger whose current round table (if any)
    lists every code name of the roster is accepted: the voting step of
    [voting_round] then either completes or still waits for input, and
    never raises.  This holds in particular when the file is missing. *)
Theorem cast_vote_accepted (gs : GameState) (ps : PlayerState) (lines : list Line)
    (vf : VotingFile) :
  (vf = VMissing \/
   exists d, vf = VData d /\
     forall t, lookup (round_key (round_number gs)) d = Some t ->
       forall p, In p (players gs) -> lookup (code_name p) t <> None) ->
  fst (cast_vote gs ps lines vf) = Done tt \/ fst (cast_vote gs ps lines vf) = Blocked.
Proof.
  intros Hvf; unfold cast_vote.
  destruct (still_in_game ps); [|now left].
  unfold bind at 1, lift.
  destruct (collect_vote gs ps lines) as [who| e |] eqn:Hc.
  - destruct (collect_vote_in_roster _ _ _ _ Hc) as [p [Hp [Hn _]]].
    assert (Hin : In who (map code_name (players gs))) by (rewrite <- Hn; now apply in_map).
    assert (Hd : exists d vf1, get_voting_dict gs vf = (Done d, vf1) /\
                   forall t, lookup (round_key (round_number gs)) d = Some t ->
                     lookup who t <> None).
    { destruct Hvf as [->|[d [-> Hcov]]].
      - eexists; eexists; split; [reflexivity|].
        intros t Ht; cbn [lookup] in Ht.
        destruct (String.eqb (round_key (round_number gs)) "votes_r0"); [|discriminate].
        injection Ht as <-; rewrite zero_table_lookup.
        apply existsb_code_name_in in Hin; rewrite Hin; discriminate.
      - exists d, (VData d); split; [reflexivity|].
        intros t Ht; rewrite <- Hn; exact (Hcov t Ht p Hp). }
    destruct Hd as [d [vf1 [Hg Hcov]]].
    destruct (update_voting_dict_done gs who vf vf1 d Hg Hin Hcov) as [d2 Hu].
    left; unfold bind; rewrite Hu; reflexivity.
  - exfalso; exact (collect_loop_no_raise _ _ _ _ Hc).
  - now right.
Qed.

(** ** Round start times *)

Lemma lookup_single (k n : string) (v : string) :
  lookup n [(k, v)] = if String.eqb n k then Some v else None.
Proof. reflexivity. Qed.

(** X: a timekeeper never waits.  When the player is the timekeeper, or
    becomes it because the start-time file is missing,
    [synchronize_start_time] returns at once; afterwards the file is a
    dict that maps the current round to the returned start time, the
    player is the timekeeper, and every other round keeps the entry it
    had in the loaded dict.  A round that had no entry gets [now]. *)
Theorem synchronize_start_time_timekeeper (gs : GameState) (ps : PlayerState)
    (now : string) (obs : list StartFile) (f : StartFile) :
  timekeeper ps = true \/ f = SMissing ->
  let current_round := str_of_Z (round_number gs) in
  exists ps' s d',
    synchronize_start_time gs ps now obs f = (Done (ps', s), SData d') /\
    timekeeper ps' = true /\ code_name ps' = code_name ps /\
    lookup current_round d' = Some s /\
    (forall k, k <> current_round -> lookup k d' = lookup k (start_times_of f)) /\
    (lookup current_round (start_times_of f) = None -> s = now).
Proof.
  intros Htk current_round.
  assert (Hnew : forall d, lookup current_round d = None ->
            lookup current_round (assoc_set d current_round now) = Some now /\
            forall k, k <> current_round ->
              lookup k (assoc_set d current_round now) = lookup k d).
  { intros d _; split; [apply lookup_assoc_set|].
    intros k Hk; rewrite lookup_assoc_set_cases.
    destruct (String.eqb k current_round) eqn:E; [now apply String.eqb_eq in E|reflexivity]. }
  destruct f as [| |d].
  - exists (set_starttime (assign_timekeeper ps) now), now, [(current_round, now)].
    split; [reflexivity|split; [reflexivity|split; [reflexivity|]]].
    destruct (Hnew [] eq_refl) as [H1 H2].
    split; [exact H1|split; [intros k Hk; exact (H2 k Hk)|intros _; reflexivity]].
  - destruct Htk as [Htk|Htk]; [|discriminate].
    exists (set_starttime ps now), now, [(current_round, now)].
    unfold synchronize_start_time, bind, get, ret, load_start_times; simpl.
    rewrite Htk.
    split; [reflexivity|split; [first [exact Htk|reflexivity]|split; [reflexivity|]]].
    destruct (Hnew [] eq_refl) as [H1 H2].
    split; [exact H1|split; [intros k Hk; exact (H2 k Hk)|intros _; reflexivity]].
  - destruct Htk as [Htk|Htk]; [|discriminate].
    unfold synchronize_start_time, bind, get, ret, load_start_times; simpl.
    rewrite Htk; fold current_round.
    destruct d as [|kv d'].
    + exists (set_starttime ps now), now, [(current_round, now)].
      split; [reflexivity|split; [first [exact Htk|reflexivity]|split; [reflexivity|]]].
      destruct (Hnew [] eq_refl) as [H1 H2].
      split; [exact H1|split; [intros k Hk; exact (H2 k Hk)|intros _; reflexivity]].
    + destruct (lookup current_round (kv :: d')) as [s|] eqn:E.
      * exists (set_starttime ps s), s, (kv :: d').
        split; [reflexivity|split; [first [exact Htk|reflexivity]|split; [reflexivity|]]].
        split; [exact E|split; [intros; reflexivity|discriminate]].
      * exists (set_starttime ps now), now, (assoc_set (kv :: d') current_round now).
        split; [reflexivity|split; [first [exact Htk|reflexivity]|split; [reflexivity|]]].
        destruct (Hnew _ E) as [H1 H2].
        split; [exact H1|split; [intros k Hk; exact (H2 k Hk)|intros _; reflexivity]].
Qed.

Lemma wait_for_start_time_spec (current_round : string) (obs : list StartFile) :
  forall f s f', wait_for_start_time current_round obs f = (Done s, f') ->
  In f' obs /\ lookup current_round (start_times_of f') = Some s.
Proof.
  induction obs as [|o obs IH]; intros f s f' H; [discriminate|].
  cbn [wait_for_start_time] in H.
  unfold bind, put, load_start_times, get, ret in H.
  destruct o as [| |d]; simpl in H.
  - destruct (IH _ _ _ H) as [H1 H2]; split; [now right|exact H2].
  - destruct (IH _ _ _ H) as [H1 H2]; split; [now right|exact H2].
  - destruct (lookup current_round d) as [s0|] eqn:E.
    + injection H as <- <-; split; [now left|exact E].
    + destruct (IH _ _ _ H) as [H1 H2]; split; [now right|exact H2].
Qed.

(** X: a player who is not the timekeeper never writes the start-time
    file once it exists.  The only change [synchronize_start_time] makes
    to the player is its [starttime], set to the returned start time; the
    file after the call is the one it found or one that the other
    processes wrote while it waited, and the returned start time is that
    file's entry for the current round. *)
Theorem synchronize_start_time_follower (gs : GameState) (ps : PlayerState)
    (now : string) (obs : list StartFile) (f f' : StartFile) (ps' : PlayerState) (s : string) :
  timekeeper ps = false -> f <> SMissing ->
  synchronize_start_time gs ps now obs f = (Done (ps', s), f') ->
  ps' = set_starttime ps s /\ (f' = f \/ In f' obs) /\
  lookup (str_of_Z (round_number gs)) (start_times_of f') = Some s.
Proof.
  intros Htk Hf H.
  set (cur := str_of_Z (round_number gs)) in *.
  assert (Hwait : forall f0, bind (wait_for_start_time cur obs)
                                  (fun s1 => ret (set_starttime ps s1, s1)) f0
                             = (Done (ps', s), f') ->
                  ps' = set_starttime ps s /\ In f' obs /\ lookup cur (start_times_of f') = Some s).
  { intros f0 Hb; unfold bind in Hb.
    destruct (wait_for_start_time cur obs f0) as [[s1| |] f1] eqn:Ew; try discriminate.
    unfold ret in Hb; injection Hb as <- <- <-.
    destruct (wait_for_start_time_spec _ _ _ _ _ Ew) as [H1 H2]; now split. }
  destruct f as [| |d]; [contradiction| |].
  - unfold synchronize_start_time in H; fold cur in H.
    unfold bind at 1, get in H; simpl in H.
    unfold bind at 1, load_start_times, get in H; simpl in H.
    rewrite Htk in H.
    destruct (Hwait _ H) as [H1 [H2 H3]]; split; [exact H1|split; [now right|exact H3]].
  - unfold synchronize_start_time in H; fold cur in H.
    unfold bind at 1, get in H; simpl in H.
    unfold bind at 1, load_start_times, get in H; simpl in H.
    rewrite Htk in H.
    destruct (lookup cur d) as [s0|] eqn:E.
    + assert (H' : (Done (set_starttime ps s0, s0), SData d) = (Done (ps', s), f'))
        by (rewrite <- H; destruct d; [discriminate E|];
            cbv beta iota delta [bind get ret]; rewrite E; reflexivity).
      injection H' as <- <- <-; split; [reflexivity|split; [now left|exact E]].
    + assert (H' : bind (wait_for_start_time cur obs) (fun s1 => ret (set_starttime ps s1, s1))
                     (SData d) = (Done (ps', s), f'))
        by (rewrite <- H; destruct d; [reflexivity|];
            cbv beta iota delta [bind get ret]; rewrite E; reflexivity).
      destruct (Hwait _ H') as [H1 [H2 H3]]; split; [exact H1|split; [now right|exact H3]].
Qed.

(** X: synchronising again within a round reuses the stored time.  When
    the start-time file already maps the current round to [s], any
    player, timekeeper or not, gets [s] back with its [starttime] set to
    [s] and nothing else changed, and the file is left as it is. *)
Theorem synchronize_start_time_reuses (gs : GameState) (ps : PlayerState) (now : string)
    (obs : list StartFile) (d : list (string * string)) (s : string) :
  lookup (str_of_Z (round_number gs)) d = Some s ->
  synchronize_start_time gs ps now obs (SData d) = (Done (set_starttime ps s, s), SData d).
Proof.
  intros E.
  destruct d as [|kv d]; [discriminate E|].
  unfold synchronize_start_time.
  cbv beta iota delta [bind get ret load_start_times].
  destruct (timekeeper ps); rewrite E; reflexivity.
Qed.

(** ** Reading the chat log *)

Lemma string_app_assoc (a b c : string) : ((a ++ b) ++ c = a ++ (b ++ c))%string.
Proof. induction a as [|x a IH]; simpl; [reflexivity|now rewrite IH]. Qed.

Lemma readlines_nonempty (c : ascii) (s : string) : readlines (String c s) <> [].
Proof.
  simpl; destruct (Ascii.eqb c newline); [discriminate|].
  destruct (readlines s); discriminate.
Qed.

Lemma readlines_app (a b : string) :
  line_complete a = true -> readlines (a ++ b) = readlines a ++ readlines b.
Proof.
  induction a as [|c a IH]; intros H; [reflexivity|].
  change (String c a ++ b)%string with (String c (a ++ b)).
  cbn [readlines].
  destruct (Ascii.eqb c newline) eqn:Ec.
  - destruct a as [|c' a']; [reflexivity|].
    rewrite IH by exact H; reflexivity.
  - destruct a as [|c' a'].
    + simpl in H; rewrite Ec in H; discriminate.
    + rewrite IH by exact H.
      destruct (readlines (String c' a')) as [|l ls] eqn:Er;
        [exfalso; exact (readlines_nonempty _ _ Er)|reflexivity].
Qed.

Lemma readlines_one_line (s : string) :
  no_newline s = true ->
  readlines (s ++ String newline EmptyString) = [(s ++ String newline EmptyString)%string].
Proof.
  induction s as [|c s IH]; intros H; [reflexivity|].
  simpl in H; apply andb_true_iff in H as [Hc Hs]; apply andb_true_iff in Hc as [Hc _].
  change (String c s ++ String newline EmptyString)%string
    with (String c (s ++ String newline EmptyString)).
  cbn [readlines]; rewrite IH by exact Hs.
  apply negb_true_iff in Hc; rewrite Hc; reflexivity.
Qed.

Lemma no_newline_app (a b : string) :
  no_newline (a ++ b) = no_newline a && no_newline b.
Proof.
  induction a as [|c a IH]; simpl; [reflexivity|].
  rewrite IH; rewrite !andb_assoc; reflexivity.
Qed.

Lemma lstrip_length (s : string) : (String.length (lstrip s) <= String.length s)%nat.
Proof.
  induction s as [|c s IH]; simpl; [lia|].
  destruct (is_space c); simpl; lia.
Qed.

Lemma lstrip_name_colon (name t : string) :
  lstrip name = name -> lstrip (name ++ String ":" t) = (name ++ String ":" t)%string.
Proof.
  destruct name as [|c n]; intros H; [reflexivity|].
  simpl in H |- *; destruct (is_space c); [|reflexivity].
  exfalso; pose proof (lstrip_length n) as Hl; rewrite H in Hl; simpl in Hl; lia.
Qed.

Lemma rstrip_name_colon (name t : string) :
  rstrip (name ++ String ":" t) = (name ++ String ":" (rstrip t))%string.
Proof.
  induction name as [|c n IH]; [reflexivity|].
  change (String c n ++ String ":" t)%string with (String c (n ++ String ":" t)).
  cbn [rstrip]; rewrite IH.
  destruct (is_space c && String.eqb (n ++ String ":" (rstrip t)) EmptyString) eqn:E;
    [|reflexivity].
  exfalso; apply andb_true_iff in E as [_ E]; apply String.eqb_eq in E.
  destruct n; discriminate.
Qed.

Lemma prefix_app (p u : string) : String.prefix p (p ++ u) = true.
Proof.
  induction p as [|a p IH]; simpl; [destruct u; reflexivity|].
  destruct (ascii_dec a a); [exact IH|contradiction].
Qed.

(** X: the automated player never answers itself twice in a row.  If
    one pass of [ai_response] appends its reply to a chat log that ends
    with a complete line, the next pass on that log skips, whatever the
    responder would say, provided the code name does not start with
    whitespace and neither the code name nor the reply contains a line
    break. *)
Theorem ai_response_no_self_reply (ai_name content r line : string)
    (resp' : Outcome string) :
  line_complete content = true ->
  lstrip ai_name = ai_name -> no_newline ai_name = true -> no_newline r = true ->
  ai_response_step ai_name true content (Done r) = AiWrite line ->
  ai_response_step ai_name true (content ++ line) resp' = AiSkip.
Proof.
  intros Hc Hl Hn Hr H.
  unfold ai_response_step in H; simpl negb in H; cbv iota in H.
  destruct (String.prefix _ _); [discriminate|].
  destruct (existsb (String.eqb r) ai_sentinels); [discriminate|].
  injection H as <-.
  set (body := (ai_name ++ ": " ++ r)%string).
  assert (Hline : (ai_name ++ String ":" (String " " (r ++ String newline EmptyString)))%string
                  = (body ++ String newline EmptyString)%string)
    by (unfold body; rewrite !string_app_assoc; reflexivity).
  rewrite Hline.
  unfold ai_response_step; simpl negb; cbv iota.
  rewrite readlines_app by exact Hc.
  rewrite readlines_one_line
    by (unfold body; rewrite !no_newline_app, Hn, Hr; reflexivity).
  rewrite map_app; simpl map; rewrite last_last.
  unfold py_strip, body.
  change (": " ++ r)%string with (String ":" (String " " r)).
  rewrite string_app_assoc; simpl (String ":" (String " " r) ++ String newline EmptyString)%string.
  rewrite lstrip_name_colon by exact Hl.
  rewrite rstrip_name_colon.
  change (String ":" (rstrip (String " " (r ++ String newline EmptyString))))
    with (":" ++ rstrip (String " " (r ++ String newline EmptyString)))%string.
  rewrite <- string_app_assoc, prefix_app; reflexivity.
Qed.

Lemma voting_options_from_nth (idx k : nat) (l : list PlayerState) :
  nth_error (voting_options_from idx l) k =
  option_map (fun p => (str_of_Z (Z.of_nat (idx + k) + 1) ++ ": " ++ code_name p)%string)
             (nth_error l k).
Proof.
  revert idx k; induction l as [|p l IH]; intros idx k; [destruct k; reflexivity|].
  destruct k as [|k]; simpl.
  - rewrite Nat.add_0_r; reflexivity.
  - rewrite IH; replace (S idx + k)%nat with (idx + S k)%nat by lia; reflexivity.
Qed.

Lemma string_app_cancel_l (a b c : string) : (a ++ b = a ++ c)%string -> b = c.
Proof.
  induction a as [|x a IH]; simpl; [exact id|].
  intros H; injection H as H; exact (IH H).
Qed.

(** X: the ballot's numbers are the ones [collect_vote] reads.  If line
    [k] of the options [display_voting_prompt] lists (counting from 0)
    reads ["<k+1>: <name>"], and [name] is not the voter's own code
    name, then typing [k+1] at the prompt casts the vote for [name]. *)
Theorem display_voting_prompt_matches_vote (gs : GameState) (ps : PlayerState)
    (k : nat) (name : string) (rest : list Line) :
  nth_error (voting_options gs) k =
    Some (str_of_Z (Z.of_nat k + 1) ++ ": " ++ name)%string ->
  name <> code_name ps ->
  collect_vote gs ps (LInt (Z.of_nat k + 1) :: rest) = Done name.
Proof.
  intros H Hn.
  unfold voting_options in H; unfold collect_vote.
  set (el := sort_by_code_name (players gs)) in *.
  rewrite voting_options_from_nth in H; simpl (0 + k)%nat in H.
  destruct (nth_error el k) as [p|] eqn:Ek; [|discriminate H].
  injection H as H.
  apply string_app_cancel_l in H.
  change (": " ++ code_name p = ": " ++ name)%string in H.
  apply string_app_cancel_l in H; subst name.
  assert (Hk : (k < List.length el)%nat) by (apply nth_error_Some; congruence).
  simpl collect_loop.
  replace ((1 <=? Z.of_nat k + 1) && (Z.of_nat k + 1 <=? Z.of_nat (List.length el)))
    with true by (symmetry; apply andb_true_iff; split; apply Z.leb_le; lia).
  replace (Z.to_nat (Z.of_nat k + 1 - 1)) with k by lia.
  rewrite Ek.
  destruct (String.eqb (code_name p) (code_name ps)) eqn:Eq; [|reflexivity].
  apply String.eqb_eq in Eq; contradiction.
Qed.

Lemma prefix_name_colon (a b t : string) :
  no_colon a = true -> no_colon b = true ->
  String.prefix (a ++ ":") (b ++ String ":" t) = true -> a = b.
Proof.
  revert b; induction a as [|c a IH]; intros b Ha Hb H.
  - destruct b as [|d b]; [reflexivity|exfalso].
    simpl in Hb; apply andb_true_iff in Hb as [Hd _].
    cbn [String.prefix append] in H; destruct (ascii_dec ":" d) as [e|n]; [subst d; rewrite Ascii.eqb_refl in Hd; discriminate Hd|discriminate H].
  - simpl in Ha; apply andb_true_iff in Ha as [Hc Ha].
    destruct b as [|d b].
    + exfalso; cbn [String.prefix append] in H; destruct (ascii_dec c ":") as [e|n]; [subst c; rewrite Ascii.eqb_refl in Hc; discriminate Hc|discriminate H].
    + simpl in Hb; apply andb_true_iff in Hb as [_ Hb].
      cbn [String.prefix append] in H; destruct (ascii_dec c d) as [e|]; [subst d|discriminate].
      f_equal; exact (IH b Ha Hb H).
Qed.

(** X: the automated player answers the other players.  When a player
    whose code name differs from the automated player's has just appended
    a line with [user_input] to a chat log that ended with a complete
    line, and the responder's answer [r] is not one of its sentinels, the
    next pass of [ai_response] appends [r] in the same format, under its
    own code name; this needs neither code name to contain [":"], the
    player's code name not to start with whitespace, and neither that name
    nor the message to contain a line break. *)
Theorem ai_response_answers_player (ai_name code content msg r : string) :
  line_complete content = true ->
  lstrip code = code -> no_newline code = true -> no_newline msg = true ->
  no_colon ai_name = true -> no_colon code = true -> ai_name <> code ->
  existsb (String.eqb r) ai_sentinels = false ->
  ai_response_step ai_name true (content ++ user_input_line code msg) (Done r)
  = AiWrite (user_input_line ai_name r).
Proof.
  intros Hc Hl Hn Hm Ha Hb Hne Hs.
  set (body := (code ++ ": " ++ msg)%string).
  assert (Hline : user_input_line code msg = (body ++ String newline EmptyString)%string)
    by (unfold user_input_line, body; rewrite !string_app_assoc; reflexivity).
  unfold ai_response_step; simpl negb; cbv iota.
  rewrite Hline, readlines_app by exact Hc.
  rewrite readlines_one_line
    by (unfold body; rewrite !no_newline_app, Hn, Hm; reflexivity).
  rewrite map_app; simpl map; rewrite last_last.
  unfold py_strip, body.
  change (": " ++ msg)%string with (String ":" (String " " msg)).
  rewrite string_app_assoc; simpl (String ":" (String " " msg) ++ String newline EmptyString)%string.
  rewrite lstrip_name_colon by exact Hl.
  rewrite rstrip_name_colon.
  destruct (String.prefix _ _) eqn:E.
  - exfalso; exact (Hne (prefix_name_colon _ _ _ Ha Hb E)).
  - rewrite Hs; reflexivity.
Qed.

(** X: [read_new_messages] catches up.  For a non-negative [last_line],
    the new messages are the non-blank stripped lines from position
    [last_line] on, the returned index is the larger of [last_line] and
    the number of such lines, and reading again from that index returns
    no new message and the same index. *)
Theorem read_new_messages_caught_up (content : string) (last_line : Z)
    (full new : list string) (last' : Z) :
  0 <= last_line ->
  read_new_messages content last_line = (full, new, last') ->
  new = skipn (Z.to_nat last_line) full /\
  last' = Z.max last_line (Z.of_nat (List.length full)) /\
  read_new_messages content last' = (full, [], last').
Proof.
  intros Hl H; unfold read_new_messages, py_slice_from in *.
  apply Z.leb_le in Hl as Hl'; rewrite Hl' in H.
  injection H as Hf Hn Hlast.
  rewrite Hf in Hn, Hlast.
  assert (Hmax : last' = Z.max last_line (Z.of_nat (List.length full))).
  { rewrite <- Hlast, length_skipn; lia. }
  split; [now rewrite <- Hn|split; [exact Hmax|]].
  rewrite Hf.
  assert (Hpos : (0 <=? last') = true) by (apply Z.leb_le; lia).
  rewrite Hpos, skipn_all2 by lia; simpl; f_equal; lia.
Qed.

(** X: after lines are appended to a chat log that ended with a complete
    line, reading from the count of messages seen so far returns exactly
    the non-blank stripped lines of the appended text, and the index
    moves past them. *)
Theorem read_new_messages_appended (old extra : string) :
  line_complete old = true ->
  let full_old := fst (fst (read_new_messages old 0)) in
  let full_extra := fst (fst (read_new_messages extra 0)) in
  read_new_messages (old ++ extra) (Z.of_nat (List.length full_old)) =
  (full_old ++ full_extra, full_extra,
   Z.of_nat (List.length full_old + List.length full_extra)).
Proof.
  intros Hc full_old full_extra.
  unfold full_old, full_extra, read_new_messages, py_slice_from; simpl fst.
  rewrite readlines_app by exact Hc.
  rewrite filter_app, map_app.
  replace (0 <=? Z.of_nat _) with true by (symmetry; apply Z.leb_le; lia).
  rewrite Nat2Z.id, skipn_app, skipn_all, Nat.sub_diag; simpl.
  f_equal; rewrite Nat2Z.inj_add; lia.
Qed.

(** ** [SequentialAssigner] *)

Lemma py_upper_length (s : string) : String.length (py_upper s) = String.length s.
Proof. induction s as [|c s IH]; simpl; [reflexivity|now rewrite IH]. Qed.

(** X: [_load_items] yields a usable list or raises.  When it returns,
    the list has at least one item and no item is the empty string;
    every item is the upper-cased stripped form of an entry of the list
    stored under the key. *)
Theorem load_items_valid (key : string) (f : ListFile) (items : list string) :
  load_items key f = inl items ->
  items <> [] /\ Forall (fun i => i <> EmptyString) items /\
  exists d raw, f = LData d /\ lookup key d = Some (JStrList raw) /\
    forall i, In i items -> exists x, In x raw /\ i = py_upper (py_strip x).
Proof.
  destruct f as [| |d]; simpl; try discriminate.
  destruct (lookup key d) as [[raw|]|] eqn:E; try discriminate.
  set (l := map (fun item => py_upper (py_strip item))
                (filter (fun item => negb (String.eqb (py_strip item) EmptyString)) raw)).
  intros H.
  assert (Hl : l = items) by (destruct l; [discriminate|injection H as <-; reflexivity]).
  rewrite <- Hl.
  split; [destruct l; [discriminate|discriminate]|split].
  - apply Forall_forall; intros i Hi.
    unfold l in Hi; apply in_map_iff in Hi as [x [<- Hx]].
    apply filter_In in Hx as [_ Hx]; apply negb_true_iff in Hx.
    intros He; apply (f_equal String.length) in He; rewrite py_upper_length in He.
    destruct (py_strip x); [rewrite String.eqb_refl in Hx; discriminate|discriminate].
  - exists d, raw; split; [reflexivity|split; [exact E|]].
    intros i Hi; unfold l in Hi; apply in_map_iff in Hi as [x [<- Hx]].
    apply filter_In in Hx as [Hx _]; exists x; split; [exact Hx|reflexivity].
Qed.

Lemma read_index_range (items : list string) (f : IndexFile) :
  items <> [] -> 0 <= read_index items f < Z.of_nat (List.length items).
Proof.
  intros Hne.
  assert (Hpos : (0 < List.length items)%nat) by (destruct items; [contradiction|simpl; lia]).
  destruct f as [|z|]; simpl; try lia.
  destruct ((0 <=? z) && (z <? Z.of_nat (List.length items))) eqn:E; [|lia].
  apply andb_true_iff in E as [E1 E2]; apply Z.leb_le in E1; apply Z.ltb_lt in E2; lia.
Qed.

Lemma assign_step (items : list string) (f : IndexFile) :
  items <> [] -> ~ In EmptyString items ->
  let i0 := read_index items f in
  assign items f =
  (Done (Some (nth (Z.to_nat i0) items EmptyString)),
   IParsed ((i0 + 1) mod Z.of_nat (List.length items))).
Proof.
  intros Hne Hemp i0.
  pose proof (read_index_range items f Hne) as Hr; fold i0 in Hr.
  unfold assign, bind, get, ret, put; fold i0.
  assert (Hlt : (Z.to_nat i0 < List.length items)%nat) by lia.
  rewrite (nth_error_nth' items EmptyString Hlt).
  assert (Hin : In (nth (Z.to_nat i0) items EmptyString) items) by (now apply nth_In).
  replace (String.eqb (nth (Z.to_nat i0) items EmptyString) EmptyString
           || negb (existsb (String.eqb (nth (Z.to_nat i0) items EmptyString)) items))
    with false; [reflexivity|].
  destruct (String.eqb (nth (Z.to_nat i0) items EmptyString) EmptyString) eqn:E1.
  - apply String.eqb_eq in E1; rewrite E1 in Hin; contradiction.
  - simpl; symmetry; apply negb_false_iff, existsb_exists.
    exists (nth (Z.to_nat i0) items EmptyString); split; [exact Hin|apply String.eqb_refl].
Qed.

(** X: [assign] walks the list round-robin.  For a non-empty list with
    no empty item, [k] successive calls return the items at positions
    [i0], [i0 + 1], ... modulo the length, where [i0] is the stored index
    when it is a valid position and 0 otherwise (missing, unreadable or
    out-of-range index file); after [k > 0] calls the index file holds
    [(i0 + k) mod len]. *)
Theorem assign_round_robin (items : list string) (k : nat) (f : IndexFile) :
  items <> [] -> ~ In EmptyString items ->
  let n := Z.of_nat (List.length items) in
  let i0 := read_index items f in
  fst (assign_n k items f) =
    Done (map (fun j => Some (nth (Z.to_nat ((i0 + Z.of_nat j) mod n)) items EmptyString))
              (seq 0 k)) /\
  ((0 < k)%nat -> snd (assign_n k items f) = IParsed ((i0 + Z.of_nat k) mod n)).
Proof.
  intros Hne Hemp n.
  assert (Hn : 0 < n) by (unfold n; destruct items; [contradiction|simpl; lia]).
  revert f; induction k as [|k IH]; intros f i0; [split; [reflexivity|lia]|].
  pose proof (read_index_range items f Hne) as Hr; fold i0 n in Hr.
  set (i1 := (i0 + 1) mod n).
  assert (Hi1 : read_index items (IParsed i1) = i1).
  { unfold read_index; fold n.
    assert (0 <= i1 < n) by (apply Z.mod_pos_bound; lia).
    replace ((0 <=? i1) && (i1 <? n)) with true; [reflexivity|].
    symmetry; apply andb_true_iff; split; [apply Z.leb_le|apply Z.ltb_lt]; lia. }
  assert (Hstep : assign_n (S k) items f =
            match assign_n k items (IParsed i1) with
            | (Done xs, f2) => (Done (Some (nth (Z.to_nat i0) items EmptyString) :: xs), f2)
            | (Raised e, f2) => (Raised e, f2)
            | (Blocked, f2) => (Blocked, f2)
            end).
  { cbn [assign_n]; unfold bind at 1; rewrite (assign_step items f Hne Hemp).
    unfold bind; change (read_index items f) with i0.
    change (Z.of_nat (List.length items)) with n; change ((i0 + 1) mod n) with i1.
    destruct (assign_n k items (IParsed i1)) as [[xs| |] f2]; reflexivity. }
  destruct (IH (IParsed i1)) as [IH1 IH2]; rewrite Hi1 in IH1, IH2.
  rewrite Hstep.
  destruct (assign_n k items (IParsed i1)) as [o f2] eqn:Ea.
  simpl in IH1, IH2; subst o.
  assert (Hshift : forall j, (i1 + Z.of_nat j) mod n = (i0 + Z.of_nat (S j)) mod n).
  { intros j; unfold i1; rewrite Zplus_mod_idemp_l; f_equal; lia. }
  split.
  - simpl; rewrite Z.add_0_r, (Z.mod_small i0 n) by lia.
    rewrite <- seq_shift, map_map.
    do 2 f_equal; apply map_ext; intros j; now rewrite Hshift.
  - intros _; simpl; destruct k as [|k].
    + simpl in Ea; injection Ea as <-; reflexivity.
    + rewrite IH2 by lia; f_equal.
      unfold i1; rewrite Zplus_mod_idemp_l; f_equal.
      rewrite ?Zpos_P_of_succ_nat; lia.
Qed.

Lemma add_mod_inj (a b c n : Z) :
  0 < n -> 0 <= b < n -> 0 <= c < n -> (a + b) mod n = (a + c) mod n -> b = c.
Proof.
  intros Hn Hb Hc H.
  assert (Hd : (b - c) mod n = 0).
  { replace (b - c) with ((a + b) - (a + c)) by lia.
    rewrite Zminus_mod, H, Z.sub_diag; apply Z.mod_0_l; lia. }
  apply Z.mod_divide in Hd; [|lia].
  destruct Hd as [q Hq].
  destruct (Z.lt_trichotomy q 0) as [Hq0|[Hq0|Hq0]]; [nia|subst q; lia|nia].
Qed.

(** X: [assign] does not repeat itself within one pass over the list.
    For a list of distinct non-empty items, up to [len items] successive
    calls return distinct items, whatever the index file held. *)
Theorem assign_no_repeat (items : list string) (k : nat) (f : IndexFile) :
  NoDup items -> ~ In EmptyString items -> (k <= List.length items)%nat ->
  exists xs, fst (assign_n k items f) = Done xs /\ NoDup xs.
Proof.
  intros Hnd Hemp Hk.
  destruct items as [|it0 its] eqn:Ei.
  - simpl in Hk; assert (k = 0%nat) as -> by lia; exists []; split; [reflexivity|constructor].
  - rewrite <- Ei in *.
    assert (Hne : items <> []) by (rewrite Ei; discriminate).
    destruct (assign_round_robin items k f Hne Hemp) as [H1 _].
    set (n := Z.of_nat (List.length items)) in *.
    set (i0 := read_index items f) in *.
    pose proof (read_index_range items f Hne) as Hr; fold n i0 in Hr.
    eexists; split; [exact H1|].
    apply NoDup_map_NoDup_ForallPairs; [|apply seq_NoDup].
    intros j1 j2 Hj1 Hj2 Heq; injection Heq as Heq.
    apply in_seq in Hj1, Hj2.
    assert (Hb : forall j, (j < k)%nat -> 0 <= (i0 + Z.of_nat j) mod n < n)
      by (intros j _; apply Z.mod_pos_bound; lia).
    pose proof (Hb j1 (proj2 Hj1)) as Hb1; pose proof (Hb j2 (proj2 Hj2)) as Hb2.
    apply (proj1 (NoDup_nth items EmptyString)) in Heq; [|exact Hnd|lia|lia].
    apply Z2Nat.inj in Heq; [|lia|lia].
    apply add_mod_inj in Heq; lia.
Qed.

(** ** Witnesses of the further properties *)

Lemma collect_vote_in_roster_witness :
  exists p, In p (players (sample_game 0 0)) /\ code_name p = "C"%string /\
            "C"%string <> code_name sample_A.
Proof.
  exact (collect_vote_in_roster (sample_game 0 0) sample_A [LInt 3] "C" eq_refl).
Defined.

Lemma update_voting_dict_adds_one_vote_witness :
  sum_votes (ledger_table
    [("votes_r0"%string, [("A"%string, 1); ("B"%string, 0); ("C"%string, 1)])] 0) =
  sum_votes (ledger_table
    [("votes_r0"%string, [("A"%string, 1); ("B"%string, 0); ("C"%string, 0)])] 0) + 1.
Proof.
  exact (proj1 (proj2 (update_voting_dict_adds_one_vote (sample_game 0 0) "C"
    (VData [("votes_r0"%string, [("A"%string, 1); ("B"%string, 0); ("C"%string, 0)])])
    (VData [("votes_r0"%string, [("A"%string, 1); ("B"%string, 0); ("C"%string, 0)])])
    (VData [("votes_r0"%string, [("A"%string, 1); ("B"%string, 0); ("C"%string, 1)])])
    [("votes_r0"%string, [("A"%string, 1); ("B"%string, 0); ("C"%string, 0)])]
    [("votes_r0"%string, [("A"%string, 1); ("B"%string, 0); ("C"%string, 1)])]
    eq_refl eq_refl))).
Defined.

Lemma process_voting_result_roster_witness :
  exists msg gs' ps',
    process_voting_result (sample_game 0 0) sample_A 2 ["C"%string] = Done (msg, gs', ps') /\
    (List.length (players gs') + List.length (players_voted_off gs') = 3)%nat.
Proof.
  destruct (process_voting_result (sample_game 0 0) sample_A 2 ["C"%string])
    as [[[msg gs'] ps']| |] eqn:E; [|vm_compute in E; discriminate..].
  exists msg, gs', ps'; split; [reflexivity|].
  assert (Hnd : NoDup (map code_name (players (sample_game 0 0))))
    by (simpl; repeat constructor; simpl; intuition discriminate).
  destruct (process_voting_result_roster _ _ _ _ _ _ _ Hnd E) as [Hl _].
  simpl in Hl; lia.
Defined.

Lemma voting_round_player_flag_witness :
  match voting_round (sample_game 0 0) sample_C [LInt 2]
          [VData [("votes_r0"%string, [("A"%string, 0); ("B"%string, 2); ("C"%string, 0)])]]
          VMissing with
  | (Done (_, gs2, ps2), _) =>
      still_in_game ps2 = true ->
      exists p, In p (players gs2) /\ still_in_game p = true /\ code_name p = "C"%string
  | _ => False
  end.
Proof.
  destruct (voting_round (sample_game 0 0) sample_C [LInt 2]
              [VData [("votes_r0"%string, [("A"%string, 0); ("B"%string, 2); ("C"%string, 0)])]]
              VMissing) as [[[[ss gs2] ps2]| |] vf'] eqn:E;
    [|vm_compute in E; discriminate|vm_compute in E; discriminate].
  intros Hs.
  exact (proj2 (proj2 (proj2 (voting_round_player_flag _ _ _ _ _ _ _ _ _ E)) Hs)).
Defined.

Lemma wait_for_votes_enough_witness :
  Z.of_nat 2 <= sum_votes (ledger_table
    [("votes_r0"%string, [("A"%string, 0); ("B"%string, 1); ("C"%string, 1)])] 0).
Proof.
  exact (proj1 (proj2 (wait_for_votes_enough (sample_game 0 0) 2
    [VMissing; VData [("votes_r0"%string, [("A"%string, 0); ("B"%string, 1); ("C"%string, 1)])]]
    VMissing
    (VData [("votes_r0"%string, [("A"%string, 0); ("B"%string, 1); ("C"%string, 1)])])
    [("votes_r0"%string, [("A"%string, 0); ("B"%string, 1); ("C"%string, 1)])]
    eq_refl))).
Defined.

Lemma cast_vote_accepted_witness :
  fst (cast_vote (sample_game 0 0) sample_A [LInt 3] VMissing) = Done tt \/
  fst (cast_vote (sample_game 0 0) sample_A [LInt 3] VMissing) = Blocked.
Proof.
  exact (cast_vote_accepted (sample_game 0 0) sample_A [LInt 3] VMissing (or_introl eq_refl)).
Defined.

Lemma synchronize_start_time_timekeeper_witness :
  exists ps' s d',
    synchronize_start_time (sample_game 1 0) sample_A "2025-05-01 10:05:00" []
      (SData [("0"%string, "2025-05-01 10:00:00"%string)]) = (Done (ps', s), SData d') /\
    lookup "1" d' = Some s.
Proof.
  destruct (synchronize_start_time_timekeeper (sample_game 1 0) sample_A "2025-05-01 10:05:00" []
              (SData [("0"%string, "2025-05-01 10:00:00"%string)]) (or_introl eq_refl))
    as (ps' & s & d' & H1 & _ & _ & H4 & _).
  exists ps', s, d'; split; [exact H1|exact H4].
Defined.

Lemma synchronize_start_time_follower_witness :
  exists ps' s f',
    synchronize_start_time (sample_game 1 0) sample_C "2025-05-01 10:09:00"
      [SData []; SData [("1"%string, "2025-05-01 10:05:00"%string)]]
      (SData [("0"%string, "2025-05-01 10:00:00"%string)]) = (Done (ps', s), f') /\
    ps' = set_starttime sample_C s /\ lookup "1" (start_times_of f') = Some s.
Proof.
  destruct (synchronize_start_time (sample_game 1 0) sample_C "2025-05-01 10:09:00"
              [SData []; SData [("1"%string, "2025-05-01 10:05:00"%string)]]
              (SData [("0"%string, "2025-05-01 10:00:00"%string)]))
    as [[[ps' s]| |] f'] eqn:E; [|vm_compute in E; discriminate..].
  exists ps', s, f'; split; [reflexivity|].
  destruct (synchronize_start_time_follower (sample_game 1 0) sample_C "2025-05-01 10:09:00" _
              (SData [("0"%string, "2025-05-01 10:00:00"%string)]) f' ps' s eq_refl ltac:(discriminate) E)
    as [H1 [_ H3]].
  split; [exact H1|exact H3].
Defined.

Lemma synchronize_start_time_reuses_witness :
  synchronize_start_time (sample_game 1 0) sample_B "2025-05-01 10:09:00" []
    (SData [("1"%string, "2025-05-01 10:05:00"%string)]) =
  (Done (set_starttime sample_B "2025-05-01 10:05:00", "2025-05-01 10:05:00"%string), SData [("1"%string, "2025-05-01 10:05:00"%string)]).
Proof.
  exact (synchronize_start_time_reuses (sample_game 1 0) sample_B "2025-05-01 10:09:00" []
           [("1"%string, "2025-05-01 10:05:00"%string)] "2025-05-01 10:05:00" eq_refl).
Defined.

Lemma ai_response_no_self_reply_witness :
  ai_response_step "B" true
    (("A: hi" ++ String newline EmptyString) ++ ("B: hello" ++ String newline EmptyString))
    (Done "again"%string) = AiSkip.
Proof.
  exact (ai_response_no_self_reply "B" ("A: hi" ++ String newline EmptyString) "hello"
           ("B: hello" ++ String newline EmptyString) (Done "again"%string)
           eq_refl eq_refl eq_refl eq_refl eq_refl).
Defined.

Lemma ai_response_answers_player_witness :
  ai_response_step "B" true
    (("C: hi" ++ String newline EmptyString) ++ user_input_line "A" "hello")
    (Done "hey"%string) = AiWrite (user_input_line "B" "hey").
Proof.
  exact (ai_response_answers_player "B" "A" ("C: hi" ++ String newline EmptyString)
           "hello" "hey" eq_refl eq_refl eq_refl eq_refl eq_refl eq_refl
           ltac:(discriminate) eq_refl).
Defined.

Lemma display_voting_prompt_matches_vote_witness :
  voting_options (sample_game 0 0) = ["1: A"; "2: B"; "3: C"]%string /\
  collect_vote (sample_game 0 0) sample_A [LInt (Z.of_nat 1 + 1)] = Done "B"%string.
Proof.
  split; [vm_compute; reflexivity|].
  exact (display_voting_prompt_matches_vote (sample_game 0 0) sample_A 1 "B" []
           ltac:(vm_compute; reflexivity) ltac:(discriminate)).
Defined.

Lemma read_new_messages_caught_up_witness :
  read_new_messages ("a" ++ String newline (String newline ("b" ++ String newline EmptyString))) 2
  = (["a"; "b"]%string, [], 2).
Proof.
  exact (proj2 (proj2 (read_new_messages_caught_up
           ("a" ++ String newline (String newline ("b" ++ String newline EmptyString))) 1
           ["a"; "b"]%string ["b"]%string 2 ltac:(lia) eq_refl))).
Defined.

Lemma read_new_messages_appended_witness :
  read_new_messages (("a" ++ String newline EmptyString) ++ ("b" ++ String newline EmptyString)) 1
  = (["a"; "b"]%string, ["b"]%string, 2).
Proof.
  exact (read_new_messages_appended ("a" ++ String newline EmptyString)
           ("b" ++ String newline EmptyString) eq_refl).
Defined.

Lemma load_items_valid_witness :
  Forall (fun i => i <> EmptyString) ["RED"; "BLUE"]%string.
Proof.
  exact (proj1 (proj2 (load_items_valid "colors"
           (LData [("colors"%string, JStrList [" red "; ""; "blue"]%string)])
           ["RED"; "BLUE"]%string eq_refl))).
Defined.

Lemma assign_round_robin_witness :
  fst (assign_n 4 ["X"; "Y"; "Z"]%string (IParsed 1)) =
  Done [Some "Y"; Some "Z"; Some "X"; Some "Y"]%string.
Proof.
  destruct (assign_round_robin ["X"; "Y"; "Z"]%string 4 (IParsed 1) ltac:(discriminate)
              ltac:(simpl; intuition discriminate)) as [H1 _].
  rewrite H1; reflexivity.
Defined.

Lemma assign_no_repeat_witness :
  exists xs, fst (assign_n 3 ["X"; "Y"; "Z"]%string (IParsed 2)) = Done xs /\ NoDup xs.
Proof.
  exact (assign_no_repeat ["X"; "Y"; "Z"]%string 3 (IParsed 2)
           ltac:(repeat constructor; simpl; intuition discriminate)
           ltac:(simpl; intuition discriminate) ltac:(simpl; lia)).
Defined.
